(** * SkateSpotApp: the map screen, its spot helpers and the places normaliser

  A shallow embedding of [app/index.tsx], of the earlier variant of the same
  screen (module [Part000]) and of [src/libs/spots.ts].

  - JavaScript strings are sequences of UTF-16 code units ([list N]).
  - JavaScript numbers are IEEE 754 binary64 values ([PrimFloat.float]).
  - An [async] handler is a tree of state updates and backend calls
    ([prog]); [run] executes a handler to completion against a backend,
    [step] interleaves handlers at their [await] points. *)

From Stdlib Require Import List NArith ZArith Bool Lia String Ascii.
From Stdlib Require Import Floats.PrimFloat.
From Stdlib Require Import Numbers.Cyclic.Int63.PrimInt63.
From Stdlib Require Floats.FloatAxioms Numbers.Cyclic.Int63.Uint63 Logic.Eqdep.
Import ListNotations.

Set Implicit Arguments.
Set Warnings "-register-all,-inexact-float".

(* ================================================================= *)
(** ** JavaScript values *)

Module JS.

(** A string is its sequence of UTF-16 code units. *)
Definition code_unit := N.
Definition jsstring := list code_unit.

(** An ASCII literal of the source. *)
Definition lit (s : string) : jsstring :=
  map N_of_ascii (list_ascii_of_string s).

Fixpoint str_eqb (s t : jsstring) : bool :=
  match s, t with
  | [], [] => true
  | c :: s', d :: t' => N.eqb c d && str_eqb s' t'
  | _, _ => false
  end.

(** [!s] for a string: only the empty string is falsy. *)
Definition falsy_str (s : jsstring) : bool :=
  match s with [] => true | _ :: _ => false end.

(** ECMAScript WhiteSpace and LineTerminator code points, the set that
    [String.prototype.trim] strips.  All of them lie in the basic
    multilingual plane, so each is one code unit. *)
Definition isWhiteSpace (c : code_unit) : bool :=
  (  N.eqb c 0x0009 || N.eqb c 0x000A || N.eqb c 0x000B || N.eqb c 0x000C
  || N.eqb c 0x000D || N.eqb c 0x0020 || N.eqb c 0x00A0 || N.eqb c 0x1680
  || (N.leb 0x2000 c && N.leb c 0x200A)
  || N.eqb c 0x2028 || N.eqb c 0x2029 || N.eqb c 0x202F || N.eqb c 0x205F
  || N.eqb c 0x3000 || N.eqb c 0xFEFF)%N.

Fixpoint trimStart (s : jsstring) : jsstring :=
  match s with
  | [] => []
  | c :: s' => if isWhiteSpace c then trimStart s' else s
  end.

Definition trimEnd (s : jsstring) : jsstring := rev (trimStart (rev s)).

(** [s.trim()] *)
Definition trim (s : jsstring) : jsstring := trimEnd (trimStart s).

(** A string made of white space only (the empty string included). *)
Definition blank (s : jsstring) : bool := forallb isWhiteSpace s.

(** [a ?? b] on an optional argument. *)
Definition nullish_or {A} (a : option A) (b : A) : A :=
  match a with Some x => x | None => b end.

(** [s || null] for a string [s]. *)
Definition or_null (s : jsstring) : option jsstring :=
  if falsy_str s then None else Some s.

(** A number is a binary64 float. *)
Definition number := float.

Fixpoint int_of_pos (p : positive) : int :=
  match p with
  | xH => 1%uint63
  | xO p' => PrimInt63.lsl (int_of_pos p') 1%uint63
  | xI p' => PrimInt63.lor (PrimInt63.lsl (int_of_pos p') 1%uint63) 1%uint63
  end.

(** The number that holds an array length. *)
Definition number_of_nat (n : nat) : number :=
  match N.of_nat n with
  | N0 => 0%float
  | Npos p => PrimFloat.of_uint63 (int_of_pos p)
  end.

(** Values as [JSON.parse] builds them ([undefined] is what a missing
    property reads as). *)
Inductive value : Type :=
| Undefined
| Null
| Bool (b : bool)
| Num (n : number)
| Str (s : jsstring)
| Arr (elems : list value)
| Obj (fields : list (jsstring * value)).

Fixpoint lookup (k : jsstring) (fields : list (jsstring * value)) : value :=
  match fields with
  | [] => Undefined
  | (k', v) :: rest => if str_eqb k k' then v else lookup k rest
  end.

Definition nullish (v : value) : bool :=
  match v with Undefined | Null => true | _ => false end.

(** [v.k]: a TypeError ([None]) on [null] and [undefined].  The property
    names read by this program ([lat], [lon], [center], [tags], [name],
    [leisure], [type], [id], [elements]) exist on no built-in prototype, so
    they read as [undefined] on every primitive and on arrays. *)
Definition get (v : value) (k : string) : option value :=
  match v with
  | Undefined | Null => None
  | Obj fields => Some (lookup (lit k) fields)
  | _ => Some Undefined
  end.

(** [v?.k] *)
Definition get_opt (v : value) (k : string) : value :=
  match get v k with Some x => x | None => Undefined end.

(** [a ?? b] *)
Definition coalesce (a b : value) : value := if nullish a then b else a.

(** [typeof v === "number"] *)
Definition is_number (v : value) : bool :=
  match v with Num _ => true | _ => false end.

(** [v === s] for a string literal [s]. *)
Definition strict_eq_str (v : value) (s : string) : bool :=
  match v with Str t => str_eqb t (lit s) | _ => false end.

End JS.
Import JS.

(* ================================================================= *)
(** ** Data model *)

Module Spot.
Record t : Type := mk {
  id : jsstring;
  name : jsstring;
  description : option jsstring;
  lat : number;
  lng : number;
  created_at : jsstring }.
End Spot.

Module Review.
Record t : Type := mk {
  id : jsstring;
  spot_id : jsstring;
  rating : number;
  created_at : jsstring }.
End Review.

Module Place.
(** The [id] of a place is the template string [`${el.type}-${el.id}`];
    it is kept as the two interpolated values. *)
Record t : Type := mk {
  id : value * value;
  name : value;
  lat : number;
  lng : number;
  tags : value }.
End Place.

Record Region : Type := mkRegion {
  latitude : number;
  longitude : number;
  latitudeDelta : number;
  longitudeDelta : number }.

Definition GRAND_RAPIDS : Region :=
  mkRegion 42.9634%float (-85.6681)%float 0.15%float 0.15%float.

(* ================================================================= *)
(** ** The places normaliser of [loadNearbySkateShops] *)

Module Nearby.

(** The callback of [.map]: [None] is a thrown TypeError, [Some None] is the
    [null] the callback returns for an element without coordinates. *)
Definition toPlace (el : value) : option (option Place.t) :=
  match get el "lat", get el "lon" with
  | Some lat, Some lon =>
      let center := get_opt el "center" in
      let pLat := coalesce lat (get_opt center "lat") in
      let pLng := coalesce lon (get_opt center "lon") in
      match pLat, pLng with
      | Num a, Num b =>
          let tags := get_opt el "tags" in
          let name :=
            coalesce (get_opt tags "name")
              (if strict_eq_str (get_opt tags "leisure") "skate_park"
               then Str (lit "Skate park") else Str (lit "Skate shop")) in
          Some (Some (Place.mk (get_opt el "type", get_opt el "id") name a b
                               (coalesce tags (Obj []))))
      | _, _ => Some None
      end
  | _, _ => None
  end.

(** [xs.map(f)] for a callback that may throw. *)
Fixpoint map_throwing {A B} (f : A -> option B) (xs : list A) : option (list B) :=
  match xs with
  | [] => Some []
  | x :: xs' =>
      match f x with
      | None => None
      | Some y =>
          match map_throwing f xs' with
          | None => None
          | Some ys => Some (y :: ys)
          end
      end
  end.

(** [.filter(Boolean)] on a list of places and [null]s. *)
Fixpoint filter_Boolean {A} (xs : list (option A)) : list A :=
  match xs with
  | [] => []
  | Some x :: xs' => x :: filter_Boolean xs'
  | None :: xs' => filter_Boolean xs'
  end.

Definition normalize_elements (els : list value) : option (list Place.t) :=
  match map_throwing toPlace els with
  | Some r => Some (filter_Boolean r)
  | None => None
  end.

(** [(json.elements ?? []).map(...).filter(Boolean)]; anything but an array
    has no [map] method, and the call throws. *)
Definition normalized (json : value) : option (list Place.t) :=
  match get json "elements" with
  | None => None
  | Some e =>
      match coalesce e (Arr []) with
      | Arr els => normalize_elements els
      | _ => None
      end
  end.

End Nearby.

(* ================================================================= *)
(** ** Backend calls and asynchronous handlers *)

(** What a handler awaits: the queries sent to the hosted backend through
    the [supabase] client, the two calls to the location service, and the
    answer to the delete confirmation. *)
Inductive request : Type :=
| SelectSpots (order_by : jsstring) (ascending : bool) (limit : number)
    (** [from('spots').select('*').order(c, {ascending}).limit(n)] *)
| InsertSpot (name : jsstring) (description : option jsstring) (lat lng : number)
    (** [from('spots').insert({...}).select().single()] *)
| InsertSpotOnly (name : jsstring) (description : option jsstring) (lat lng : number)
    (** [from('spots').insert({...})] *)
| DeleteSpot (id : jsstring)
    (** [from('spots').delete().eq('id', id)] *)
| SelectReviews (spot_id : jsstring) (order_by : jsstring) (ascending : bool)
    (** [from('reviews').select('*').eq('spot_id', id).order(c, {ascending})] *)
| InsertReview (spot_id : jsstring) (rating : number)
    (** [from('reviews').insert({spot_id, rating})] *)
| RequestForegroundPermissions
| GetCurrentPosition
| AlertDelete (name : jsstring).
    (** [Alert.alert('Delete spot?', name, [Cancel, Delete])] *)

(** The error half of a response; only its [message] is ever read. *)
Record PostgrestError : Type := mkError { message : jsstring }.

(** A response of the client is either a payload or an error. *)
Inductive result (T : Type) : Type :=
| Ok (data : T)
| Failed (error : PostgrestError).
Arguments Ok {T} data.
Arguments Failed {T} error.

Definition resp_type (q : request) : Type :=
  match q with
  | SelectSpots _ _ _ => result (list Spot.t)
  | InsertSpot _ _ _ _ => result Spot.t
  | InsertSpotOnly _ _ _ _ => result unit
  | DeleteSpot _ => result unit
  | SelectReviews _ _ _ => result (list Review.t)
  | InsertReview _ _ => result unit
  | RequestForegroundPermissions => bool          (* status === "granted" *)
  | GetCurrentPosition => (number * number)%type  (* coords.latitude, coords.longitude *)
  | AlertDelete _ => bool                         (* the Delete button was pressed *)
  end.

(** A backend answers every request. *)
Definition backend : Type := forall q : request, resp_type q.

(** An asynchronous function over a screen state [St]: it returns, applies
    a state setter, or awaits a request and continues with the response. *)
Inductive prog (St : Type) : Type :=
| Ret
| Upd (f : St -> St) (k : prog St)
| Call (q : request) (k : resp_type q -> prog St).
Arguments Ret {St}.
Arguments Upd {St} f k.
Arguments Call {St} q k.

Declare Scope prog_scope.
Delimit Scope prog_scope with prog.
Notation "'set' f ';' k" := (Upd f k)
  (at level 10, f at level 10, k at level 200) : prog_scope.
Notation "'await' r '<-' q ';' k" := (Call q (fun r => k))
  (at level 10, r name, q at level 10, k at level 200) : prog_scope.
Notation "'return_'" := Ret : prog_scope.

(** [await p; q]: the statements [q] that follow an awaited call of [p]. *)
Fixpoint seq {St} (p q : prog St) : prog St :=
  match p with
  | Ret => q
  | Upd f k => Upd f (seq k q)
  | Call r k => Call r (fun x => seq (k x) q)
  end.

(** Running a handler to completion: the final state and the requests sent,
    in order. *)
Fixpoint run {St} (b : backend) (p : prog St) (st : St) : St * list request :=
  match p with
  | Ret => (st, [])
  | Upd f k => run b k (f st)
  | Call q k => let (st', tr) := run b (k (b q)) st in (st', q :: tr)
  end.

(** Running a handler up to its next [await]. *)
Fixpoint advance {St} (p : prog St) (st : St)
  : St * option {q : request & resp_type q -> prog St} :=
  match p with
  | Ret => (st, None)
  | Upd f k => advance k (f st)
  | Call q k => (st, Some (existT _ q k))
  end.

(* ================================================================= *)
(** ** [src/libs/spots.ts] *)

Module Libs.

(** [listSpots(limit = 100)] *)
Definition listSpots (limit : option number) : prog unit :=
  (await _r <- SelectSpots (lit "created_at") false (nullish_or limit 100%float);
   return_)%prog.

(** [createSpot(input)] with [input.description ?? null]. *)
Definition createSpot (name : jsstring) (description : option jsstring)
    (lat lng : number) : prog unit :=
  (await _r <- InsertSpotOnly name description lat lng;
   return_)%prog.

End Libs.

(* ================================================================= *)
(** ** The map screen, [app/index.tsx] *)

Module Index.

(** The [useState] cells of the component. *)
Record state : Type := mkState {
  places : list Place.t;
  placesLoading : bool;
  spots : list Spot.t;
  error : option jsstring;
  region : Region;
  loading : bool;
  spotRating : number;
  detailsOpen : bool;
  selectedSpot : option Spot.t;
  spotReviews : list Review.t;
  newReviewRating : number;
  newReviewComment : jsstring;
  createOpen : bool;
  pendingCoord : option (number * number);
  spotName : jsstring;
  spotDesc : jsstring }.

Definition setPlaces (v : list Place.t) (st : state) : state :=
  mkState v (placesLoading st) (spots st) (error st) (region st) (loading st)
    (spotRating st) (detailsOpen st) (selectedSpot st) (spotReviews st)
    (newReviewRating st) (newReviewComment st) (createOpen st) (pendingCoord st)
    (spotName st) (spotDesc st).
Definition setPlacesLoading (v : bool) (st : state) : state :=
  mkState (places st) v (spots st) (error st) (region st) (loading st)
    (spotRating st) (detailsOpen st) (selectedSpot st) (spotReviews st)
    (newReviewRating st) (newReviewComment st) (createOpen st) (pendingCoord st)
    (spotName st) (spotDesc st).
(** [setSpots(prev => f(prev))] *)
Definition setSpots (f : list Spot.t -> list Spot.t) (st : state) : state :=
  mkState (places st) (placesLoading st) (f (spots st)) (error st) (region st)
    (loading st) (spotRating st) (detailsOpen st) (selectedSpot st) (spotReviews st)
    (newReviewRating st) (newReviewComment st) (createOpen st) (pendingCoord st)
    (spotName st) (spotDesc st).
Definition setError (v : option jsstring) (st : state) : state :=
  mkState (places st) (placesLoading st) (spots st) v (region st) (loading st)
    (spotRating st) (detailsOpen st) (selectedSpot st) (spotReviews st)
    (newReviewRating st) (newReviewComment st) (createOpen st) (pendingCoord st)
    (spotName st) (spotDesc st).
Definition setRegion (v : Region) (st : state) : state :=
  mkState (places st) (placesLoading st) (spots st) (error st) v (loading st)
    (spotRating st) (detailsOpen st) (selectedSpot st) (spotReviews st)
    (newReviewRating st) (newReviewComment st) (createOpen st) (pendingCoord st)
    (spotName st) (spotDesc st).
Definition setLoading (v : bool) (st : state) : state :=
  mkState (places st) (placesLoading st) (spots st) (error st) (region st) v
    (spotRating st) (detailsOpen st) (selectedSpot st) (spotReviews st)
    (newReviewRating st) (newReviewComment st) (createOpen st) (pendingCoord st)
    (spotName st) (spotDesc st).
Definition setSpotRating (v : number) (st : state) : state :=
  mkState (places st) (placesLoading st) (spots st) (error st) (region st)
    (loading st) v (detailsOpen st) (selectedSpot st) (spotReviews st)
    (newReviewRating st) (newReviewComment st) (createOpen st) (pendingCoord st)
    (spotName st) (spotDesc st).
Definition setDetailsOpen (v : bool) (st : state) : state :=
  mkState (places st) (placesLoading st) (spots st) (error st) (region st)
    (loading st) (spotRating st) v (selectedSpot st) (spotReviews st)
    (newReviewRating st) (newReviewComment st) (createOpen st) (pendingCoord st)
    (spotName st) (spotDesc st).
Definition setSelectedSpot (v : option Spot.t) (st : state) : state :=
  mkState (places st) (placesLoading st) (spots st) (error st) (region st)
    (loading st) (spotRating st) (detailsOpen st) v (spotReviews st)
    (newReviewRating st) (newReviewComment st) (createOpen st) (pendingCoord st)
    (spotName st) (spotDesc st).
Definition setSpotReviews (v : list Review.t) (st : state) : state :=
  mkState (places st) (placesLoading st) (spots st) (error st) (region st)
    (loading st) (spotRating st) (detailsOpen st) (selectedSpot st) v
    (newReviewRating st) (newReviewComment st) (createOpen st) (pendingCoord st)
    (spotName st) (spotDesc st).
Definition setNewReviewRating (v : number) (st : state) : state :=
  mkState (places st) (placesLoading st) (spots st) (error st) (region st)
    (loading st) (spotRating st) (detailsOpen st) (selectedSpot st) (spotReviews st)
    v (newReviewComment st) (createOpen st) (pendingCoord st) (spotName st)
    (spotDesc st).
Definition setNewReviewComment (v : jsstring) (st : state) : state :=
  mkState (places st) (placesLoading st) (spots st) (error st) (region st)
    (loading st) (spotRating st) (detailsOpen st) (selectedSpot st) (spotReviews st)
    (newReviewRating st) v (createOpen st) (pendingCoord st) (spotName st)
    (spotDesc st).
Definition setCreateOpen (v : bool) (st : state) : state :=
  mkState (places st) (placesLoading st) (spots st) (error st) (region st)
    (loading st) (spotRating st) (detailsOpen st) (selectedSpot st) (spotReviews st)
    (newReviewRating st) (newReviewComment st) v (pendingCoord st) (spotName st)
    (spotDesc st).
Definition setPendingCoord (v : option (number * number)) (st : state) : state :=
  mkState (places st) (placesLoading st) (spots st) (error st) (region st)
    (loading st) (spotRating st) (detailsOpen st) (selectedSpot st) (spotReviews st)
    (newReviewRating st) (newReviewComment st) (createOpen st) v (spotName st)
    (spotDesc st).
Definition setSpotName (v : jsstring) (st : state) : state :=
  mkState (places st) (placesLoading st) (spots st) (error st) (region st)
    (loading st) (spotRating st) (detailsOpen st) (selectedSpot st) (spotReviews st)
    (newReviewRating st) (newReviewComment st) (createOpen st) (pendingCoord st) v
    (spotDesc st).
Definition setSpotDesc (v : jsstring) (st : state) : state :=
  mkState (places st) (placesLoading st) (spots st) (error st) (region st)
    (loading st) (spotRating st) (detailsOpen st) (selectedSpot st) (spotReviews st)
    (newReviewRating st) (newReviewComment st) (createOpen st) (pendingCoord st)
    (spotName st) v.

(** The state of the first render. *)
Definition initial : state :=
  mkState [] false [] None GRAND_RAPIDS false 0%float false None [] 0%float []
    false None [] [].

(** [reload()]; on success [data] is the array of rows, so [data ?? []] is
    [data]. *)
Definition reload : prog state :=
  (set setError None;
   set setLoading true;
   await r <- SelectSpots (lit "created_at") false 500%float;
   set setLoading false;
   match r with
   | Failed e => set setError (Some (message e)); return_
   | Ok data => set setSpots (fun _ => data); return_
   end)%prog.

(** [createSpotAt(lat, lng, name, description?, initialRating?)].  Inside
    the guard [(initialRating ?? 0) > 0] the argument is defined, so the
    [rating] sent is [initialRating ?? 0]. *)
Definition createSpotAt (lat lng : number) (name : jsstring)
    (description : option jsstring) (initialRating : option number) : prog state :=
  (set setError None;
   let trimmedName := trim name in
   if falsy_str trimmedName then
     set setError (Some (lit "Name is required")); return_
   else
     await r <- InsertSpot trimmedName (or_null (trim (nullish_or description []))) lat lng;
     match r with
     | Failed spotErr => set setError (Some (message spotErr)); return_
     | Ok spot =>
         seq (if PrimFloat.ltb 0 (nullish_or initialRating 0%float) then
                await r' <- InsertReview (Spot.id spot) (nullish_or initialRating 0%float);
                match r' with
                | Failed reviewErr => set setError (Some (message reviewErr)); return_
                | Ok _ => return_
                end
              else return_)
             (set setSpots (fun prev => spot :: prev); return_)
     end)%prog.

(** [selectedSpot?.id === id] *)
Definition selected_has_id (sel : option Spot.t) (id : jsstring) : bool :=
  match sel with
  | Some s => str_eqb (Spot.id s) id
  | None => false
  end.

(** [deleteSpotById(id)], as closed over the render [c]. *)
Definition deleteSpotById (c : state) (id : jsstring) : prog state :=
  (set setError None;
   await r <- DeleteSpot id;
   match r with
   | Failed e => set setError (Some (message e)); return_
   | Ok _ =>
       set setSpots (fun prev => filter (fun s => negb (str_eqb (Spot.id s) id)) prev);
       if selected_has_id (selectedSpot c) id then
         set setDetailsOpen false;
         set setSelectedSpot None;
         set setSpotReviews [];
         return_
       else return_
   end)%prog.

(** [loadReviews(spotId)] *)
Definition loadReviews (spotId : jsstring) : prog state :=
  (await r <- SelectReviews spotId (lit "created_at") false;
   match r with
   | Failed e => set setError (Some (message e)); return_
   | Ok data => set setSpotReviews data; return_
   end)%prog.

(** [spotReviews.reduce((sum, r) => sum + r.rating, 0)] *)
Definition sum_ratings (reviews : list Review.t) : number :=
  fold_left (fun sum r => PrimFloat.add sum (Review.rating r)) reviews 0%float.

(** [avgRating], recomputed at every render from [spotReviews]. *)
Definition avgRating (spotReviews : list Review.t) : number :=
  match spotReviews with
  | [] => 0%float
  | _ :: _ =>
      PrimFloat.div (sum_ratings spotReviews)
                    (number_of_nat (List.length spotReviews))
  end.

(** [openSpotDetails(spot)] *)
Definition openSpotDetails (spot : Spot.t) : prog state :=
  (set setSelectedSpot (Some spot);
   set setDetailsOpen true;
   set setSpotReviews [];
   set setNewReviewRating 0%float;
   set setNewReviewComment [];
   loadReviews (Spot.id spot))%prog.

(** [addReviewForSelectedSpot()], as closed over the render [c]. *)
Definition addReviewForSelectedSpot (c : state) : prog state :=
  match selectedSpot c with
  | None => Ret
  | Some sel =>
      (set setError None;
       if PrimFloat.leb (newReviewRating c) 0%float then
         set setError (Some (lit "Please choose a rating.")); return_
       else
         await r <- InsertReview (Spot.id sel) (newReviewRating c);
         match r with
         | Failed e => set setError (Some (message e)); return_
         | Ok _ =>
             set setNewReviewRating 0%float;
             set setNewReviewComment [];
             loadReviews (Spot.id sel)
         end)%prog
  end.

(** [confirmDelete(spot)]: the alert, then [deleteSpotById] on Delete. *)
Definition confirmDelete (c : state) (spot : Spot.t) : prog state :=
  (await pressedDelete <- AlertDelete (Spot.name spot);
   if pressedDelete then deleteSpotById c (Spot.id spot) else return_)%prog.

(** The values a [Stars] control passes to [onChange]: [[1, 2, 3, 4, 5]]. *)
Definition Stars_values : list number :=
  [1%float; 2%float; 3%float; 4%float; 5%float].

(** Pressing star [n] of [<Stars onChange=... disabled=...>]. *)
Definition Stars_press (onChange : number -> prog state) (disabled : bool)
    (n : number) : prog state :=
  if disabled then Ret else onChange n.

(** [onLongPress(e)] *)
Definition onLongPress (latitude longitude : number) : prog state :=
  (set setPendingCoord (Some (latitude, longitude));
   set setSpotName [];
   set setSpotDesc [];
   set setCreateOpen true;
   set setSpotRating 0%float;
   return_)%prog.

(** The second mount effect: centre the map on the device.  [web] is
    [Platform.OS === "web"]. *)
Definition locate (web : bool) : prog state :=
  if web then Ret
  else
    (set setError None;
     await granted <- RequestForegroundPermissions;
     if negb granted then
       set setError (Some (lit "Location permission denied.")); return_
     else
       await pos <- GetCurrentPosition;
       set setRegion (mkRegion (fst pos) (snd pos) 0.08%float 0.08%float);
       return_)%prog.

(** The [onPress] of the Create button, as closed over the render [c]. *)
Definition pressCreate (c : state) : prog state :=
  match pendingCoord c with
  | None => Ret
  | Some (lat, lng) =>
      seq (createSpotAt lat lng (spotName c) (Some (spotDesc c)) (Some (spotRating c)))
          (set setCreateOpen false; return_)%prog
  end.

(** What the user and the platform can do to the screen. *)
Inductive event : Type :=
| Mounted                                  (* first effect: [reload()] *)
| MountedLocate                            (* second effect *)
| LongPress (latitude longitude : number)  (* [onLongPress] of the map *)
| ChangeSpotName (text : jsstring)
| ChangeSpotDesc (text : jsstring)
| PressSpotStar (n : number)               (* [<Stars onChange={setSpotRating}>] *)
| PressCreate
| DismissCreate                            (* Cancel, backdrop, back button *)
| PressMarker (s : Spot.t)                 (* [openSpotDetails(s)] *)
| PressAverageStar (n : number)            (* [<Stars onChange={() => {}} disabled>] *)
| PressReviewStar (n : number)             (* [<Stars onChange={setNewReviewRating}>] *)
| ChangeReviewComment (text : jsstring)
| PressSubmitReview
| DismissDetails                           (* Close, backdrop, back button *)
| PressDelete (s : Spot.t)                 (* [confirmDelete(s)] *)
| RegionChangeComplete (r : Region).

(** The handler an event runs, as closed over the render [c]. *)
Definition handler (web : bool) (c : state) (ev : event) : prog state :=
  match ev with
  | Mounted => reload
  | MountedLocate => locate web
  | LongPress latitude longitude => onLongPress latitude longitude
  | ChangeSpotName text => Upd (setSpotName text) Ret
  | ChangeSpotDesc text => Upd (setSpotDesc text) Ret
  | PressSpotStar n => Stars_press (fun v => Upd (setSpotRating v) Ret) false n
  | PressCreate => pressCreate c
  | DismissCreate => Upd (setCreateOpen false) Ret
  | PressMarker s => openSpotDetails s
  | PressAverageStar n => Stars_press (fun _ => Ret) true n
  | PressReviewStar n => Stars_press (fun v => Upd (setNewReviewRating v) Ret) false n
  | ChangeReviewComment text => Upd (setNewReviewComment text) Ret
  | PressSubmitReview => addReviewForSelectedSpot c
  | DismissDetails => Upd (setDetailsOpen false) Ret
  | PressDelete s => confirmDelete c s
  | RegionChangeComplete r => Upd (setRegion r) Ret
  end.

(** What the native screen offers: the controls of a modal exist while the
    modal is visible, a marker exists for each spot, a star for each of the
    five values, and a Delete button for the selected spot of the details
    modal. *)
Definition offered_native (c : state) (ev : event) : Prop :=
  match ev with
  | Mounted | MountedLocate | LongPress _ _ | RegionChangeComplete _ => True
  | ChangeSpotName _ | ChangeSpotDesc _ | PressCreate | DismissCreate =>
      createOpen c = true
  | PressSpotStar n => createOpen c = true /\ In n Stars_values
  | PressMarker s => In s (spots c)
  | PressAverageStar n | PressReviewStar n =>
      detailsOpen c = true /\ In n Stars_values
  | ChangeReviewComment _ | PressSubmitReview | DismissDetails =>
      detailsOpen c = true
  | PressDelete s => detailsOpen c = true /\ selectedSpot c = Some s
  end.

(** What the web fallback offers: a list of the spots, each with a Delete
    button. *)
Definition offered_web (c : state) (ev : event) : Prop :=
  match ev with
  | Mounted | MountedLocate => True
  | PressDelete s => In s (spots c)
  | _ => False
  end.

(** [if (Platform.OS === 'web') return <list>; return <map and modals>] *)
Definition enabled (web : bool) (c : state) (ev : event) : Prop :=
  if web then offered_web c ev else offered_native c ev.

(** A handler suspended at an [await]: the request and its continuation. *)
Definition task : Type := {q : request & resp_type q -> prog state}.

(** The screen and the handlers in flight. *)
Record system : Type := mkSystem {
  ui : state;
  inflight : list task }.

Definition boot : system := mkSystem initial [].

Definition suspended (t : option task) : list task :=
  match t with Some x => [x] | None => [] end.

Definition sent (t : option task) : list request :=
  match t with Some x => [projT1 x] | None => [] end.

(** One turn of the event loop: an enabled event starts its handler, or a
    response resumes a suspended one; either runs to its next [await].
    The label is the request sent, if any. *)
Inductive step (web : bool) : system -> list request -> system -> Prop :=
| step_event : forall s ev st' t,
    enabled web (ui s) ev ->
    advance (handler web (ui s) ev) (ui s) = (st', t) ->
    step web s (sent t) (mkSystem st' (suspended t ++ inflight s))
| step_reply : forall s before q k after (resp : resp_type q) st' t,
    inflight s = before ++ existT _ q k :: after ->
    advance (k resp) (ui s) = (st', t) ->
    step web s (sent t) (mkSystem st' (before ++ suspended t ++ after)).

(** Executions, with every request sent along the way. *)
Inductive steps (web : bool) : system -> list request -> system -> Prop :=
| steps_nil : forall s, steps web s [] s
| steps_cons : forall s tr s' tr' s'',
    steps web s tr s' -> step web s' tr' s'' -> steps web s (tr ++ tr') s''.

End Index.

(* ================================================================= *)
(** ** The earlier variant of the screen *)

Module Part000.

Record state : Type := mkState {
  spots : list Spot.t;
  error : option jsstring;
  region : Region;
  loading : bool;
  createOpen : bool;
  pendingCoord : option (number * number);
  spotName : jsstring;
  spotDesc : jsstring }.

(** [setSpots(prev => f(prev))] *)
Definition setSpots (f : list Spot.t -> list Spot.t) (st : state) : state :=
  mkState (f (spots st)) (error st) (region st) (loading st) (createOpen st)
    (pendingCoord st) (spotName st) (spotDesc st).
Definition setError (v : option jsstring) (st : state) : state :=
  mkState (spots st) v (region st) (loading st) (createOpen st) (pendingCoord st)
    (spotName st) (spotDesc st).
Definition setRegion (v : Region) (st : state) : state :=
  mkState (spots st) (error st) v (loading st) (createOpen st) (pendingCoord st)
    (spotName st) (spotDesc st).
Definition setLoading (v : bool) (st : state) : state :=
  mkState (spots st) (error st) (region st) v (createOpen st) (pendingCoord st)
    (spotName st) (spotDesc st).
Definition setCreateOpen (v : bool) (st : state) : state :=
  mkState (spots st) (error st) (region st) (loading st) v (pendingCoord st)
    (spotName st) (spotDesc st).
Definition setPendingCoord (v : option (number * number)) (st : state) : state :=
  mkState (spots st) (error st) (region st) (loading st) (createOpen st) v
    (spotName st) (spotDesc st).
Definition setSpotName (v : jsstring) (st : state) : state :=
  mkState (spots st) (error st) (region st) (loading st) (createOpen st)
    (pendingCoord st) v (spotDesc st).
Definition setSpotDesc (v : jsstring) (st : state) : state :=
  mkState (spots st) (error st) (region st) (loading st) (createOpen st)
    (pendingCoord st) (spotName st) v.

(** The state of the first render. *)
Definition initial : state :=
  mkState [] None GRAND_RAPIDS false false None [] [].

(** [reload()]; on success [data] is the array of rows, so [data ?? []] is
    [data]. *)
Definition reload : prog state :=
  (set setError None;
   set setLoading true;
   await r <- SelectSpots (lit "created_at") false 500%float;
   set setLoading false;
   match r with
   | Failed e => set setError (Some (message e)); return_
   | Ok data => set setSpots (fun _ => data); return_
   end)%prog.

(** [createSpotAt(lat, lng, name, description?)]; the returned row is an
    object, so [if (data)] holds on success. *)
Definition createSpotAt (lat lng : number) (name : jsstring)
    (description : option jsstring) : prog state :=
  (set setError None;
   let trimmedName := trim name in
   if falsy_str trimmedName then
     set setError (Some (lit "Name is required")); return_
   else
     await r <- InsertSpot trimmedName (or_null (trim (nullish_or description []))) lat lng;
     match r with
     | Failed e => set setError (Some (message e)); return_
     | Ok data => set setSpots (fun prev => data :: prev); return_
     end)%prog.

(** [deleteSpotById(id)] *)
Definition deleteSpotById (id : jsstring) : prog state :=
  (set setError None;
   await r <- DeleteSpot id;
   match r with
   | Failed e => set setError (Some (message e)); return_
   | Ok _ =>
       set setSpots (fun prev => filter (fun s => negb (str_eqb (Spot.id s) id)) prev);
       return_
   end)%prog.

End Part000.

(* ================================================================= *)
(** ** Vocabulary of the statements *)

(** *** Places *)

(** [el.k] and [el.center?.k] of an element that is an object. *)
Definition direct (el : value) (k : string) : value := get_opt el k.
Definition centered (el : value) (k : string) : value :=
  get_opt (get_opt el "center") k.


(** The coordinate the code resolves: the direct one unless it is [null] or
    [undefined], the centered one otherwise. *)
Definition resolved (el : value) (k : string) : value :=
  coalesce (direct el k) (centered el k).

Definition resolvable (el : value) : bool :=
  is_number (resolved el "lat") && is_number (resolved el "lon").

Definition num_of (v : value) : number :=
  match v with Num n => n | _ => 0%float end.

(** The place of a resolvable element. *)
Definition place_of (el : value) : Place.t :=
  let tags := get_opt el "tags" in
  Place.mk (get_opt el "type", get_opt el "id")
    (coalesce (get_opt tags "name")
       (if strict_eq_str (get_opt tags "leisure") "skate_park"
        then Str (lit "Skate park") else Str (lit "Skate shop")))
    (num_of (resolved el "lat")) (num_of (resolved el "lon"))
    (coalesce tags (Obj [])).

(** *** Spots *)

(** [l'] is [l] without the spots whose id is [id], the others in order. *)
Inductive removed_id (id : jsstring) : list Spot.t -> list Spot.t -> Prop :=
| removed_nil : removed_id id [] []
| removed_drop : forall s l l',
    Spot.id s = id -> removed_id id l l' -> removed_id id (s :: l) l'
| removed_keep : forall s l l',
    Spot.id s <> id -> removed_id id l l' -> removed_id id (s :: l) (s :: l').

(** A listing path: whatever the backend and the state, it sends the one
    query for the spots by [created_at], most recent first, capped at [L]. *)
Definition lists_with_limit {St} (p : prog St) (L : number) : Prop :=
  forall (b : backend) (st : St),
    snd (run b p st) = [SelectSpots (lit "created_at") false L].

(** *** Average *)

(** The arithmetic mean in IEEE 754 binary64 arithmetic, on the values the
    floats denote: the sum of the ratings, added from the left starting at
    +0, divided by their count converted to binary64. *)
Definition ieee_sum (xs : list SpecFloat.spec_float) : SpecFloat.spec_float :=
  fold_left FloatAxioms.SF64add xs (SpecFloat.S754_zero false).

Definition ieee_of_count (n : nat) : SpecFloat.spec_float :=
  SpecFloat.binary_normalize FloatOps.prec FloatOps.emax (Z.of_nat n) 0%Z false.

Definition ieee_mean (xs : list SpecFloat.spec_float) : SpecFloat.spec_float :=
  FloatAxioms.SF64div (ieee_sum xs) (ieee_of_count (List.length xs)).

(** The binary64 value [f] is the integer [n]. *)
Definition represents (f : SpecFloat.spec_float) (n : Z) : bool :=
  match f with
  | SpecFloat.S754_zero false => (n =? 0)%Z
  | SpecFloat.S754_finite false m e =>
      if (e <? 0)%Z
      then (Z.pos m =? n * 2 ^ (- e))%Z
      else (Z.pos m * 2 ^ e =? n)%Z
  | _ => false
  end.

(** *** Ratings *)

(** [1 <= r && r <= 5] *)
Definition rating_in_range (r : number) : bool :=
  PrimFloat.leb 1%float r && PrimFloat.leb r 5%float.

(** A review insert carries one of the five star values. *)
Definition request_ok (q : request) : Prop :=
  match q with
  | InsertReview _ r => In r Index.Stars_values
  | _ => True
  end.

(** The two rating cells hold 0 or a star value, and an open details modal
    has a selected spot. *)
Definition state_ok (st : Index.state) : Prop :=
  In (Index.spotRating st) (0%float :: Index.Stars_values) /\
  In (Index.newReviewRating st) (0%float :: Index.Stars_values) /\
  (Index.detailsOpen st = true -> Index.selectedSpot st <> None).

Definition preserves (g : Index.state -> Index.state) : Prop :=
  forall st, state_ok st -> state_ok (g st).

(** [safe p g]: after the updates [g] already made in this turn, [p] keeps
    [state_ok] at every [await] and at its end, sends only [request_ok]
    requests, and so does whatever resumes it. *)
Fixpoint safe (p : prog Index.state) (g : Index.state -> Index.state) : Prop :=
  match p with
  | Ret => preserves g
  | Upd f k => safe k (fun st => f (g st))
  | Call q k => preserves g /\ request_ok q /\ forall r, safe (k r) (fun st => st)
  end.

Definition task_ok (t : Index.task) : Prop :=
  request_ok (projT1 t) /\ forall r, safe (projT2 t r) (fun st => st).

Definition system_ok (s : Index.system) : Prop :=
  state_ok (Index.ui s) /\ Forall task_ok (Index.inflight s).

(** *** Sample data *)

Definition ledges : Spot.t :=
  Spot.mk (lit "s1") (lit "Ledges") None 42.96%float (-85.66)%float (lit "2024-05-01").

Definition rails : Spot.t :=
  Spot.mk (lit "s2") (lit "Rails") (Some (lit "flat bar")) 42.97%float (-85.67)%float
    (lit "2024-05-02").

Definition review_of (r : number) : Review.t :=
  Review.mk (lit "r") (lit "s1") r (lit "2024-05-03").

(** The screen with two spots, the details of [ledges] open. *)
Definition viewing_ledges : Index.state :=
  Index.setSpotReviews [review_of 3%float; review_of 5%float]
    (Index.setDetailsOpen true
       (Index.setSelectedSpot (Some ledges)
          (Index.setSpots (fun _ => [rails; ledges]) Index.initial))).

(** A backend that accepts everything. *)
Definition backend_up : backend := fun q =>
  match q return resp_type q with
  | SelectSpots _ _ _ => Ok [rails; ledges]
  | InsertSpot n d la ln => Ok (Spot.mk (lit "s3") n d la ln (lit "2024-05-04"))
  | InsertSpotOnly _ _ _ _ => Ok tt
  | DeleteSpot _ => Ok tt
  | SelectReviews _ _ _ => Ok []
  | InsertReview _ _ => Ok tt
  | RequestForegroundPermissions => true
  | GetCurrentPosition => (42.96%float, (-85.66)%float)
  | AlertDelete _ => true
  end.

(** A backend that refuses every query with the same message. *)
Definition backend_down (msg : jsstring) : backend := fun q =>
  match q return resp_type q with
  | SelectSpots _ _ _ => Failed (mkError msg)
  | InsertSpot _ _ _ _ => Failed (mkError msg)
  | InsertSpotOnly _ _ _ _ => Failed (mkError msg)
  | DeleteSpot _ => Failed (mkError msg)
  | SelectReviews _ _ _ => Failed (mkError msg)
  | InsertReview _ _ => Failed (mkError msg)
  | RequestForegroundPermissions => false
  | GetCurrentPosition => (0%float, 0%float)
  | AlertDelete _ => false
  end.

(** A backend that stores spots and refuses reviews. *)
Definition backend_no_reviews (msg : jsstring) : backend := fun q =>
  match q return resp_type q with
  | InsertReview _ _ => Failed (mkError msg)
  | SelectReviews _ _ _ => Failed (mkError msg)
  | q' => backend_up q'
  end.

(** An element whose direct latitude is a string, next to numeric centered
    coordinates. *)
Definition el_string_lat : value :=
  Obj [(lit "type", Str (lit "way")); (lit "id", Num 7%float);
       (lit "lat", Str (lit "42.9")); (lit "lon", Num (-85.6)%float);
       (lit "center", Obj [(lit "lat", Num 42.9%float); (lit "lon", Num (-85.6)%float)])].

Definition el_node : value :=
  Obj [(lit "type", Str (lit "node")); (lit "id", Num 1%float);
       (lit "lat", Num 42.9%float); (lit "lon", Num (-85.6)%float);
       (lit "tags", Obj [(lit "leisure", Str (lit "skate_park"))])].

Definition el_way : value :=
  Obj [(lit "type", Str (lit "way")); (lit "id", Num 2%float);
       (lit "center", Obj [(lit "lat", Num 43.1%float); (lit "lon", Num (-85.2)%float)])].

Definition el_bare : value :=
  Obj [(lit "type", Str (lit "relation")); (lit "id", Num 3%float)].

(* ================================================================= *)
(** ** [loadNearbySkateShops], the whole function *)

Module Shops.

(** An awaited call of the platform: it resolves to a value, or rejects
    with an error [e]; [message] is [e?.message], [None] when that is
    [null] or [undefined]. *)
Inductive outcome (A : Type) : Type :=
| Resolved (a : A)
| Rejected (message : option jsstring).
Arguments Resolved {A} a.
Arguments Rejected {A} message.

(** What [fetch] resolves to: [resp.ok], [resp.status] and the result of
    [resp.json()]. *)
Record response : Type := mkResponse {
  ok : bool;
  status : N;
  json : outcome value }.

Fixpoint digits (u : Decimal.uint) : jsstring :=
  match u with
  | Decimal.Nil => []
  | Decimal.D0 u' => 48%N :: digits u'
  | Decimal.D1 u' => 49%N :: digits u'
  | Decimal.D2 u' => 50%N :: digits u'
  | Decimal.D3 u' => 51%N :: digits u'
  | Decimal.D4 u' => 52%N :: digits u'
  | Decimal.D5 u' => 53%N :: digits u'
  | Decimal.D6 u' => 54%N :: digits u'
  | Decimal.D7 u' => 55%N :: digits u'
  | Decimal.D8 u' => 56%N :: digits u'
  | Decimal.D9 u' => 57%N :: digits u'
  end.

(** [`${n}`] for a status code, a natural number. *)
Definition decimal (n : N) : jsstring := digits (N.to_uint n).

(** How the [try] block ends: with the state updates it made, or by
    throwing an error with the given [message]. *)
Inductive attempt : Type :=
| Done (f : Index.state -> Index.state)
| Threw (message : option jsstring).

(** The [try] block.  [typeError json] is the message of the TypeError the
    engine raises when [json] cannot be normalized.  The query text sent
    with [fetch] is built from the radius and the position and is not part
    of the state. *)
Definition try_block (permission : outcome bool)
    (position : outcome (number * number)) (fetched : outcome response)
    (typeError : value -> jsstring) : attempt :=
  match permission with
  | Rejected m => Threw m
  | Resolved false =>
      Done (Index.setError (Some (lit "Location permission denied.")))
  | Resolved true =>
      match position with
      | Rejected m => Threw m
      | Resolved _ =>
          match fetched with
          | Rejected m => Threw m
          | Resolved resp =>
              if negb (ok resp) then
                Threw (Some (lit "Overpass error: HTTP " ++ decimal (status resp)))
              else
                match json resp with
                | Rejected m => Threw m
                | Resolved j =>
                    match Nearby.normalized j with
                    | None => Threw (Some (typeError j))
                    | Some places => Done (Index.setPlaces places)
                    end
                end
          end
      end
  end.

(** [loadNearbySkateShops()], run to completion. *)
Definition loadNearbySkateShops (web : bool) (permission : outcome bool)
    (position : outcome (number * number)) (fetched : outcome response)
    (typeError : value -> jsstring) (st : Index.state) : Index.state :=
  if web then
    Index.setError (Some (lit "Nearby search is native-only for now.")) st
  else
    let st1 := Index.setPlacesLoading true (Index.setError None st) in
    let st2 :=
      match try_block permission position fetched typeError with
      | Done f => f st1
      | Threw m =>
          Index.setError
            (Some (nullish_or m (lit "Failed to load nearby places."))) st1
      end in
    Index.setPlacesLoading false st2.

End Shops.

(* ================================================================= *)
(** ** Further vocabulary *)

(** [keeps I R p g]: after the updates [g] already made in this turn, [p]
    keeps the state invariant [I] at every [await] and at its end, sends
    only requests in [R], and so does whatever resumes it. *)
Fixpoint keeps (I : Index.state -> Prop) (R : request -> Prop)
    (p : prog Index.state) (g : Index.state -> Index.state) : Prop :=
  match p with
  | Ret => forall st, I st -> I (g st)
  | Upd f k => keeps I R k (fun st => f (g st))
  | Call q k =>
      (forall st, I st -> I (g st)) /\ R q /\
      forall r, keeps I R (k r) (fun st => st)
  end.

Definition task_keeps (I : Index.state -> Prop) (R : request -> Prop)
    (t : Index.task) : Prop :=
  R (projT1 t) /\ forall r, keeps I R (projT2 t r) (fun st => st).

Definition system_keeps (I : Index.state -> Prop) (R : request -> Prop)
    (s : Index.system) : Prop :=
  I (Index.ui s) /\ Forall (task_keeps I R) (Index.inflight s).

(** A turn of the event loop, by what caused it: an event of the user or
    the platform, or the response to a request in flight. *)
Inductive turn : Type :=
| Does (ev : Index.event)
| Hears (q : request) (resp : resp_type q).

(** [history web s h s']: the turns [h], in this order, lead from [s] to
    [s'].  These are the steps of [Index.step], labelled by their cause
    instead of by the request they send. *)
Inductive history (web : bool)
  : Index.system -> list turn -> Index.system -> Prop :=
| history_nil : forall s, history web s [] s
| history_event : forall s ev st' t h s',
    Index.enabled web (Index.ui s) ev ->
    advance (Index.handler web (Index.ui s) ev) (Index.ui s) = (st', t) ->
    history web (Index.mkSystem st' (Index.suspended t ++ Index.inflight s)) h s' ->
    history web s (Does ev :: h) s'
| history_reply : forall s before q k after (resp : resp_type q) st' t h s',
    Index.inflight s = before ++ existT _ q k :: after ->
    advance (k resp) (Index.ui s) = (st', t) ->
    history web (Index.mkSystem st' (before ++ Index.suspended t ++ after)) h s' ->
    history web s (Hears q resp :: h) s'.

(** A string that is not empty and neither starts nor ends with white
    space. *)
Definition trimmed (s : jsstring) : bool :=
  match s with
  | [] => false
  | c :: _ => negb (isWhiteSpace c) && negb (isWhiteSpace (last s c))
  end.

(** A spot insert with a trimmed name and a description that is [null] or
    trimmed. *)
Definition insert_ok (q : request) : Prop :=
  match q with
  | InsertSpot n d _ _ =>
      trimmed n = true /\
      match d with None => True | Some text => trimmed text = true end
  | _ => True
  end.

(** The requests of the web fallback. *)
Definition web_request (q : request) : Prop :=
  match q with
  | SelectSpots _ _ _ | AlertDelete _ | DeleteSpot _ => True
  | _ => False
  end.

(** No modal is open. *)
Definition no_modal (st : Index.state) : Prop :=
  Index.createOpen st = false /\ Index.detailsOpen st = false.

(** An open create modal has coordinates to create at. *)
Definition create_has_coord (st : Index.state) : Prop :=
  Index.createOpen st = true -> Index.pendingCoord st <> None.

(** The cells the two variants of the screen share for the spot
    operations. *)
Definition same_cells (st : Index.state) (st0 : Part000.state) : Prop :=
  Index.spots st = Part000.spots st0 /\ Index.error st = Part000.error st0.

(** No spot of [l] has the id [id]. *)
Definition absent (id : jsstring) (l : list Spot.t) : Prop :=
  forall s, In s l -> Spot.id s <> id.

(** A place with a name and tags that are neither [null] nor [undefined]. *)
Definition place_labelled (p : Place.t) : Prop :=
  nullish (Place.name p) = false /\ nullish (Place.tags p) = false.

(** A backend whose review select answers with [reviews]. *)
Definition backend_with_reviews (reviews : list Review.t) : backend := fun q =>
  match q return resp_type q with
  | SelectReviews _ _ _ => Ok reviews
  | q' => backend_up q'
  end.

(* ================================================================= *)
(** * Properties *)

(** ** Strings *)

Lemma str_eqb_refl (s : jsstring) : str_eqb s s = true.
Proof.
  induction s as [|c s IH]; simpl; [reflexivity|].
  now rewrite N.eqb_refl, IH.
Qed.

Lemma str_eqb_eq (s t : jsstring) : str_eqb s t = true <-> s = t.
Proof.
  split; [|intros ->; apply str_eqb_refl].
  revert t; induction s as [|c s IH]; intros [|d t]; simpl; try easy.
  rewrite andb_true_iff, N.eqb_eq. intros [-> H]. now rewrite (IH _ H).
Qed.

Lemma falsy_str_nil (s : jsstring) : falsy_str s = true <-> s = [].
Proof. destruct s; simpl; split; congruence. Qed.

Lemma falsy_str_cons (s : jsstring) : falsy_str s = false <-> s <> [].
Proof. destruct s; simpl; split; congruence. Qed.

(** What [trimStart] returns is empty or starts with a visible code unit. *)
Lemma trimStart_head (s : jsstring) :
  trimStart s = [] \/
  exists c t, trimStart s = c :: t /\ isWhiteSpace c = false.
Proof.
  induction s as [|c s IH]; simpl; [now left|].
  destruct (isWhiteSpace c) eqn:E; [exact IH|].
  right. now exists c, s.
Qed.

Lemma trimStart_blank (s : jsstring) : blank s = true -> trimStart s = [].
Proof.
  unfold blank. induction s as [|c s IH]; simpl; [reflexivity|].
  rewrite andb_true_iff. intros [-> H]. now apply IH.
Qed.

Lemma blank_rev (s : jsstring) : blank (rev s) = blank s.
Proof.
  unfold blank. induction s as [|c s IH]; simpl; [reflexivity|].
  rewrite forallb_app, IH. simpl. rewrite andb_true_r. apply andb_comm.
Qed.

(** A string of white space trims to the empty string. *)
Lemma trim_blank (s : jsstring) : blank s = true -> trim s = [].
Proof.
  intros H. unfold trim, trimEnd. now rewrite (trimStart_blank _ H).
Qed.

(** A trimmed string that is not empty is not made of white space. *)
Lemma trim_visible (s : jsstring) : trim s <> [] -> blank (trim s) = false.
Proof.
  unfold trim, trimEnd. intros H.
  destruct (trimStart_head (rev (trimStart s))) as [E | (c & t & E & Hc)].
  - now rewrite E in H.
  - rewrite blank_rev, E. unfold blank. simpl. now rewrite Hc.
Qed.

(** ** Running handlers *)

Lemma run_seq {St} (b : backend) (p q : prog St) (st : St) :
  run b (seq p q) st =
  let (st1, tr1) := run b p st in
  let (st2, tr2) := run b q st1 in
  (st2, tr1 ++ tr2).
Proof.
  revert st. induction p as [|f k IH|r k IH]; intros st; simpl.
  - now destruct (run b q st).
  - apply IH.
  - rewrite IH. destruct (run b (k (b r)) st) as [st1 tr1].
    now destruct (run b q st1).
Qed.

(** ** Creating a spot *)

(** C1: when the spot insert succeeds, the initial rating is positive and
    the review insert that follows returns an error, [createSpotAt] leaves
    the review error's message in the error state and still prepends the
    new spot to the local list. *)
Theorem createSpotAt_review_failure_keeps_spot :
  forall (b : backend) (lat lng : number) (name : jsstring)
         (description : option jsstring) (rating : number) (spot : Spot.t)
         (reviewErr : PostgrestError) (st : Index.state),
    trim name <> [] ->
    PrimFloat.ltb 0%float rating = true ->
    b (InsertSpot (trim name) (or_null (trim (nullish_or description []))) lat lng)
      = Ok spot ->
    b (InsertReview (Spot.id spot) rating) = Failed reviewErr ->
    let out := run b (Index.createSpotAt lat lng name description (Some rating)) st in
    Index.error (fst out) = Some (message reviewErr) /\
    Index.spots (fst out) = spot :: Index.spots st /\
    snd out =
      [InsertSpot (trim name) (or_null (trim (nullish_or description []))) lat lng;
       InsertReview (Spot.id spot) rating].
Proof.
  intros b lat lng name description rating spot reviewErr st Hname Hpos Hspot Hrev.
  apply falsy_str_cons in Hname.
  unfold Index.createSpotAt.
  change (nullish_or (Some rating) 0%float) with rating.
  cbn [run]. rewrite Hname. cbn [run]. rewrite Hspot, Hpos.
  cbn [seq run]. rewrite Hrev. cbn. repeat split.
Qed.

Lemma createSpotAt_review_failure_keeps_spot_witness :
  let out := run (backend_no_reviews (lit "permission denied"))
                 (Index.createSpotAt 1%float 2%float (lit " Bowl ") None (Some 4%float))
                 Index.initial in
  Index.error (fst out) = Some (lit "permission denied") /\
  Index.spots (fst out) =
    [Spot.mk (lit "s3") (lit "Bowl") None 1%float 2%float (lit "2024-05-04")] /\
  snd out = [InsertSpot (lit "Bowl") None 1%float 2%float;
             InsertReview (lit "s3") 4%float].
Proof.
  apply (@createSpotAt_review_failure_keeps_spot
           (backend_no_reviews (lit "permission denied"))
           1%float 2%float (lit " Bowl ") None 4%float
           (Spot.mk (lit "s3") (lit "Bowl") None 1%float 2%float (lit "2024-05-04"))
           (mkError (lit "permission denied")) Index.initial).
  - discriminate.
  - reflexivity.
  - reflexivity.
  - reflexivity.
Defined.

(** C2: a name whose trimmed form is empty makes [createSpotAt] set the
    error state to 'Name is required', send nothing to the backend and
    leave the spots list as it was; any other name makes it send the spot
    insert first, with the trimmed name and with [lat] and [lng] as given.
    Both variants of the screen agree. *)
Theorem createSpotAt_name_validation :
  forall (b : backend) (lat lng : number) (name : jsstring)
         (description : option jsstring) (initialRating : option number)
         (st : Index.state) (st0 : Part000.state),
    let out := run b (Index.createSpotAt lat lng name description initialRating) st in
    let out0 := run b (Part000.createSpotAt lat lng name description) st0 in
    match trim name with
    | [] =>
        Index.error (fst out) = Some (lit "Name is required") /\
        snd out = [] /\
        Index.spots (fst out) = Index.spots st /\
        Part000.error (fst out0) = Some (lit "Name is required") /\
        snd out0 = [] /\
        Part000.spots (fst out0) = Part000.spots st0
    | _ :: _ =>
        exists d rest,
          snd out = InsertSpot (trim name) d lat lng :: rest /\
          snd out0 = [InsertSpot (trim name) d lat lng]
    end.
Proof.
  intros b lat lng name description initialRating st st0.
  unfold Index.createSpotAt, Part000.createSpotAt. cbn [run].
  destruct (trim name) as [|c t] eqn:E; cbn [falsy_str run fst snd].
  - repeat split.
  - set (q := InsertSpot (c :: t) (or_null (trim (nullish_or description []))) lat lng).
    exists (or_null (trim (nullish_or description []))).
    destruct (run b _ (Index.setError None st)) as [st1 tr1] eqn:R1.
    exists tr1. split; [reflexivity|].
    destruct (b q); reflexivity.
Qed.

(** C10: the description sent with a spot insert is [null] when the
    argument is missing or trims to the empty string, and the trimmed
    argument otherwise; it is never a string of white space. *)
Theorem createSpotAt_description_normalized :
  forall (b : backend) (lat lng : number) (name : jsstring)
         (description : option jsstring) (initialRating : option number)
         (st : Index.state) (st0 : Part000.state),
    trim name <> [] ->
    exists d rest,
      snd (run b (Index.createSpotAt lat lng name description initialRating) st)
        = InsertSpot (trim name) d lat lng :: rest /\
      snd (run b (Part000.createSpotAt lat lng name description) st0)
        = [InsertSpot (trim name) d lat lng] /\
      d = match description with
          | None => None
          | Some text => match trim text with [] => None | _ :: _ => Some (trim text) end
          end /\
      (forall text, d = Some text -> blank text = false) /\
      (forall text, description = Some text -> blank text = true -> d = None).
Proof.
  intros b lat lng name description initialRating st st0 Hname.
  apply falsy_str_cons in Hname.
  unfold Index.createSpotAt, Part000.createSpotAt. cbn [run]. rewrite Hname.
  cbn [run].
  set (d := or_null (trim (nullish_or description []))).
  destruct (run b _ (Index.setError None st)) as [st1 tr1] eqn:R1.
  exists d, tr1. split; [reflexivity|]. split.
  { destruct (b (InsertSpot (trim name) d lat lng)); reflexivity. }
  assert (Hd : d = match description with
                   | None => None
                   | Some text =>
                       match trim text with [] => None | _ :: _ => Some (trim text) end
                   end).
  { subst d. destruct description as [text|]; cbn [nullish_or].
    - unfold or_null. now destruct (trim text).
    - reflexivity. }
  split; [exact Hd|]. split.
  - intros text Ht. rewrite Hd in Ht.
    destruct description as [text0|]; [|discriminate].
    destruct (trim text0) as [|c t] eqn:E; [discriminate|].
    injection Ht as <-. rewrite <- E. apply trim_visible. now rewrite E.
  - intros text -> Hb. rewrite Hd. now rewrite (trim_blank _ Hb).
Qed.

Lemma createSpotAt_description_normalized_witness :
  exists d rest,
    snd (run backend_up
           (Index.createSpotAt 1%float 2%float (lit "Bowl") (Some (lit "  ")) None)
           Index.initial)
      = InsertSpot (trim (lit "Bowl")) d 1%float 2%float :: rest /\
    snd (run backend_up
           (Part000.createSpotAt 1%float 2%float (lit "Bowl") (Some (lit "  ")))
           Part000.initial)
      = [InsertSpot (trim (lit "Bowl")) d 1%float 2%float] /\
    d = match Some (lit "  ") with
        | None => None
        | Some text => match trim text with [] => None | _ :: _ => Some (trim text) end
        end /\
    (forall text, d = Some text -> blank text = false) /\
    (forall text, Some (lit "  ") = Some text -> blank text = true -> d = None).
Proof.
  apply (@createSpotAt_description_normalized backend_up 1%float 2%float
           (lit "Bowl") (Some (lit "  ")) None Index.initial
           Part000.initial).
  discriminate.
Defined.

(** ** Backend errors *)

Lemma reload_error (b : backend) (e : PostgrestError) (st : Index.state) :
  b (SelectSpots (lit "created_at") false 500%float) = Failed e ->
  fst (run b Index.reload st)
    = Index.setLoading false (Index.setError (Some (message e)) st).
Proof. intros H. unfold Index.reload. cbn [run]. rewrite H. reflexivity. Qed.

Lemma reload0_error (b : backend) (e : PostgrestError) (st : Part000.state) :
  b (SelectSpots (lit "created_at") false 500%float) = Failed e ->
  fst (run b Part000.reload st)
    = Part000.setLoading false (Part000.setError (Some (message e)) st).
Proof. intros H. unfold Part000.reload. cbn [run]. rewrite H. reflexivity. Qed.

Lemma deleteSpotById_error (b : backend) (e : PostgrestError) (id : jsstring)
    (c st : Index.state) :
  b (DeleteSpot id) = Failed e ->
  fst (run b (Index.deleteSpotById c id) st) = Index.setError (Some (message e)) st.
Proof. intros H. unfold Index.deleteSpotById. cbn [run]. rewrite H. reflexivity. Qed.

Lemma deleteSpotById0_error (b : backend) (e : PostgrestError) (id : jsstring)
    (st : Part000.state) :
  b (DeleteSpot id) = Failed e ->
  fst (run b (Part000.deleteSpotById id) st) = Part000.setError (Some (message e)) st.
Proof. intros H. unfold Part000.deleteSpotById. cbn [run]. rewrite H. reflexivity. Qed.

Lemma createSpotAt_error (b : backend) (e : PostgrestError) (lat lng : number)
    (name : jsstring) (description : option jsstring) (initialRating : option number)
    (st : Index.state) :
  trim name <> [] ->
  b (InsertSpot (trim name) (or_null (trim (nullish_or description []))) lat lng)
    = Failed e ->
  fst (run b (Index.createSpotAt lat lng name description initialRating) st)
    = Index.setError (Some (message e)) st.
Proof.
  intros Hname H. apply falsy_str_cons in Hname.
  unfold Index.createSpotAt. cbn [run]. rewrite Hname. cbn [run]. rewrite H.
  reflexivity.
Qed.

Lemma createSpotAt0_error (b : backend) (e : PostgrestError) (lat lng : number)
    (name : jsstring) (description : option jsstring) (st : Part000.state) :
  trim name <> [] ->
  b (InsertSpot (trim name) (or_null (trim (nullish_or description []))) lat lng)
    = Failed e ->
  fst (run b (Part000.createSpotAt lat lng name description) st)
    = Part000.setError (Some (message e)) st.
Proof.
  intros Hname H. apply falsy_str_cons in Hname.
  unfold Part000.createSpotAt. cbn [run]. rewrite Hname. cbn [run]. rewrite H.
  reflexivity.
Qed.

(** C9: when the backend answers [reload], [deleteSpotById] or the spot
    insert of [createSpotAt] with an error, the error state becomes exactly
    the message of that error and the spots list is the one before the
    call: the final state is the initial one with the error cell set (and,
    for [reload], the loading flag back to false).  Both variants of the
    screen agree. *)
Theorem backend_error_surfaced :
  forall (b : backend) (e : PostgrestError),
    (forall st st0,
        b (SelectSpots (lit "created_at") false 500%float) = Failed e ->
        let st' := fst (run b Index.reload st) in
        let st0' := fst (run b Part000.reload st0) in
        Index.error st' = Some (message e) /\
        Index.spots st' = Index.spots st /\
        st' = Index.setLoading false (Index.setError (Some (message e)) st) /\
        Part000.error st0' = Some (message e) /\
        Part000.spots st0' = Part000.spots st0 /\
        st0' = Part000.setLoading false (Part000.setError (Some (message e)) st0)) /\
    (forall id c st st0,
        b (DeleteSpot id) = Failed e ->
        let st' := fst (run b (Index.deleteSpotById c id) st) in
        let st0' := fst (run b (Part000.deleteSpotById id) st0) in
        Index.error st' = Some (message e) /\
        Index.spots st' = Index.spots st /\
        st' = Index.setError (Some (message e)) st /\
        Part000.error st0' = Some (message e) /\
        Part000.spots st0' = Part000.spots st0 /\
        st0' = Part000.setError (Some (message e)) st0) /\
    (forall lat lng name (description : option jsstring) initialRating st st0,
        trim name <> [] ->
        b (InsertSpot (trim name) (or_null (trim (nullish_or description []))) lat lng)
          = Failed e ->
        let st' :=
          fst (run b (Index.createSpotAt lat lng name description initialRating) st) in
        let st0' := fst (run b (Part000.createSpotAt lat lng name description) st0) in
        Index.error st' = Some (message e) /\
        Index.spots st' = Index.spots st /\
        st' = Index.setError (Some (message e)) st /\
        Part000.error st0' = Some (message e) /\
        Part000.spots st0' = Part000.spots st0 /\
        st0' = Part000.setError (Some (message e)) st0).
Proof.
  intros b e. split; [|split].
  - intros st st0 H. cbv zeta.
    rewrite reload_error with (e := e), reload0_error with (e := e) by assumption.
    repeat split.
  - intros id c st st0 H. cbv zeta.
    rewrite deleteSpotById_error with (e := e), deleteSpotById0_error with (e := e)
      by assumption.
    repeat split.
  - intros lat lng name description initialRating st st0 Hname H. cbv zeta.
    rewrite createSpotAt_error with (e := e), createSpotAt0_error with (e := e)
      by assumption.
    repeat split.
Qed.

Lemma backend_error_surfaced_witness :
  Index.error (fst (run (backend_down (lit "offline")) Index.reload viewing_ledges))
    = Some (lit "offline") /\
  Index.spots (fst (run (backend_down (lit "offline"))
                        (Index.deleteSpotById viewing_ledges (lit "s1")) viewing_ledges))
    = [rails; ledges] /\
  Part000.error (fst (run (backend_down (lit "offline"))
                          (Part000.createSpotAt 1%float 2%float (lit "Bowl") None)
                          Part000.initial))
    = Some (lit "offline").
Proof.
  destruct (backend_error_surfaced (backend_down (lit "offline"))
              (mkError (lit "offline"))) as (R & D & C).
  split; [|split].
  - apply (R viewing_ledges Part000.initial). reflexivity.
  - apply (D (lit "s1") viewing_ledges viewing_ledges Part000.initial). reflexivity.
  - apply (C 1%float 2%float (lit "Bowl") None None Index.initial Part000.initial).
    + discriminate.
    + reflexivity.
Defined.

(** ** Round trips *)

Lemma createSpotAt_round_trips_counterexample :
  List.length (snd (run backend_up
                      (Index.createSpotAt 1%float 2%float (lit "  ") None None)
                      Index.initial)) <> 1 /\
  List.length (snd (run backend_up
                      (Part000.createSpotAt 1%float 2%float (lit "  ") None)
                      Part000.initial)) <> 1 /\
  List.length (snd (run backend_up
                      (Index.createSpotAt 1%float 2%float (lit "Bowl") None (Some 4%float))
                      Index.initial)) <> 1.
Proof. repeat split; vm_compute; discriminate. Qed.

(** C6, amended: [reload] sends exactly one select and [deleteSpotById]
    exactly one delete by id, whatever their arguments.  [createSpotAt]
    sends nothing when the trimmed name is empty; otherwise it sends exactly
    one spot insert, which the screen of [index.tsx] follows with one review
    insert when the spot insert succeeded and the initial rating is
    positive. *)
Theorem spot_operations_round_trips :
  forall (b : backend) (id : jsstring) (lat lng : number) (name : jsstring)
         (description : option jsstring) (initialRating : option number)
         (c st : Index.state) (st0 : Part000.state),
    snd (run b Index.reload st) = [SelectSpots (lit "created_at") false 500%float] /\
    snd (run b Part000.reload st0) = [SelectSpots (lit "created_at") false 500%float] /\
    snd (run b (Index.deleteSpotById c id) st) = [DeleteSpot id] /\
    snd (run b (Part000.deleteSpotById id) st0) = [DeleteSpot id] /\
    let ins := InsertSpot (trim name) (or_null (trim (nullish_or description []))) lat lng in
    let out := snd (run b (Index.createSpotAt lat lng name description initialRating) st) in
    let out0 := snd (run b (Part000.createSpotAt lat lng name description) st0) in
    match trim name with
    | [] => out = [] /\ out0 = []
    | _ :: _ =>
        out0 = [ins] /\
        out = ins ::
              match b ins with
              | Ok spot =>
                  if PrimFloat.ltb 0%float (nullish_or initialRating 0%float)
                  then [InsertReview (Spot.id spot) (nullish_or initialRating 0%float)]
                  else []
              | Failed _ => []
              end
    end.
Proof.
  intros b id lat lng name description initialRating c st st0.
  split; [|split; [|split; [|split]]].
  - unfold Index.reload. cbn [run].
    now destruct (b (SelectSpots (lit "created_at") false 500%float)).
  - unfold Part000.reload. cbn [run].
    now destruct (b (SelectSpots (lit "created_at") false 500%float)).
  - unfold Index.deleteSpotById. cbn [run].
    destruct (b (DeleteSpot id)); cbn [run]; [|reflexivity].
    now destruct (Index.selected_has_id (Index.selectedSpot c) id).
  - unfold Part000.deleteSpotById. cbn [run]. now destruct (b (DeleteSpot id)).
  - cbv zeta. unfold Index.createSpotAt, Part000.createSpotAt. cbn [run].
    destruct (trim name) as [|ch t] eqn:E; cbn [falsy_str run snd]; [now split|].
    set (ins := InsertSpot (ch :: t) (or_null (trim (nullish_or description []))) lat lng).
    split; [now destruct (b ins)|].
    destruct (b ins) as [spot|err]; [|reflexivity].
    rewrite run_seq.
    destruct (PrimFloat.ltb 0%float (nullish_or initialRating 0%float)); cbn [run].
    + now destruct (b (InsertReview (Spot.id spot) (nullish_or initialRating 0%float))).
    + reflexivity.
Qed.

(** ** Deleting a spot *)

Lemma filter_removed_id (id : jsstring) (l : list Spot.t) :
  removed_id id l (filter (fun s => negb (str_eqb (Spot.id s) id)) l).
Proof.
  induction l as [|s l IH]; simpl; [constructor|].
  destruct (str_eqb (Spot.id s) id) eqn:E; simpl.
  - apply removed_drop; [now apply str_eqb_eq|exact IH].
  - apply removed_keep; [|exact IH].
    intros H. apply str_eqb_eq in H. congruence.
Qed.

Lemma removed_id_In (id : jsstring) (l l' : list Spot.t) :
  removed_id id l l' ->
  forall s, In s l' <-> In s l /\ Spot.id s <> id.
Proof.
  induction 1 as [|s0 l l' Hid _ IH|s0 l l' Hid _ IH]; intros s; simpl.
  - tauto.
  - rewrite IH. split; [tauto|]. intros [[->|H] Hn]; [contradiction|tauto].
  - rewrite IH. split.
    + intros [->|[H1 H2]]; tauto.
    + intros [[->|H1] H2]; tauto.
Qed.

Lemma selected_has_id_true (sel : option Spot.t) (id : jsstring) :
  Index.selected_has_id sel id = true <-> exists s, sel = Some s /\ Spot.id s = id.
Proof.
  destruct sel as [s|]; simpl.
  - rewrite str_eqb_eq. split.
    + intros H. now exists s.
    + intros (s' & [= <-] & H). exact H.
  - split; [discriminate|]. now intros (s & H & _).
Qed.

(** C5: a successful [deleteSpotById(id)] removes from the local list
    exactly the spots whose id is [id], keeping the others in their order;
    when the selected spot has that id it also closes the details modal,
    clears the selected spot and empties the loaded reviews, and otherwise
    it leaves those three cells alone. *)
Theorem deleteSpotById_removes_and_closes :
  forall (b : backend) (id : jsstring) (u : unit) (st : Index.state),
    b (DeleteSpot id) = Ok u ->
    let st' := fst (run b (Index.deleteSpotById st id) st) in
    removed_id id (Index.spots st) (Index.spots st') /\
    (forall s, In s (Index.spots st') <-> In s (Index.spots st) /\ Spot.id s <> id) /\
    (forall sel, Index.selectedSpot st = Some sel -> Spot.id sel = id ->
       Index.detailsOpen st' = false /\
       Index.selectedSpot st' = None /\
       Index.spotReviews st' = []) /\
    ((forall sel, Index.selectedSpot st = Some sel -> Spot.id sel <> id) ->
       Index.detailsOpen st' = Index.detailsOpen st /\
       Index.selectedSpot st' = Index.selectedSpot st /\
       Index.spotReviews st' = Index.spotReviews st).
Proof.
  intros b id u st H. cbv zeta.
  unfold Index.deleteSpotById. cbn [run]. rewrite H. cbn [run].
  assert (R : removed_id id (Index.spots st)
                (filter (fun s => negb (str_eqb (Spot.id s) id)) (Index.spots st)))
    by apply filter_removed_id.
  destruct (Index.selected_has_id (Index.selectedSpot st) id) eqn:E; cbn.
  - split; [exact R|]. split; [exact (removed_id_In R)|]. split; [now intros|].
    intros Hno. apply selected_has_id_true in E. destruct E as (s & Hs & Hid).
    now destruct (Hno s Hs).
  - split; [exact R|]. split; [exact (removed_id_In R)|]. split; [|now intros].
    intros sel Hsel Hid.
    assert (T : Index.selected_has_id (Index.selectedSpot st) id = true)
      by (apply selected_has_id_true; now exists sel).
    congruence.
Qed.

Lemma deleteSpotById_removes_and_closes_witness :
  let st' := fst (run backend_up (Index.deleteSpotById viewing_ledges (lit "s1"))
                      viewing_ledges) in
  Index.spots st' = [rails] /\
  Index.detailsOpen st' = false /\
  Index.selectedSpot st' = None /\
  Index.spotReviews st' = [].
Proof.
  destruct (@deleteSpotById_removes_and_closes backend_up (lit "s1") tt viewing_ledges
              eq_refl) as (_ & _ & Hsel & _).
  split; [reflexivity|].
  apply (Hsel ledges); reflexivity.
Defined.

(** ** Listing *)

Lemma number_100_500 : 100%float <> 500%float.
Proof.
  intros H. apply (f_equal (PrimFloat.eqb 100%float)) in H.
  vm_compute in H. discriminate.
Qed.

Lemma listing_single_limit_counterexample :
  ~ exists L : number,
      lists_with_limit Index.reload L /\
      lists_with_limit Part000.reload L /\
      forall limit, lists_with_limit (Libs.listSpots limit) L.
Proof.
  intros (L & H & _ & H').
  specialize (H backend_up Index.initial).
  specialize (H' None backend_up tt).
  cbn in H, H'.
  injection H as H. injection H' as H'.
  apply number_100_500. congruence.
Qed.

(** C8, amended: every listing path asks for the spots ordered by
    [created_at], most recent first, under a row limit.  [reload] always
    uses the limit 500, in both variants of the screen; the helper
    [listSpots] uses the limit it is given, and 100 when it is given
    none. *)
Theorem listing_order_and_limit :
  lists_with_limit Index.reload 500%float /\
  lists_with_limit Part000.reload 500%float /\
  forall limit : option number,
    lists_with_limit (Libs.listSpots limit) (nullish_or limit 100%float).
Proof.
  unfold lists_with_limit. repeat split.
  - intros b st. unfold Index.reload. cbn [run].
    now destruct (b (SelectSpots (lit "created_at") false 500%float)).
  - intros b st. unfold Part000.reload. cbn [run].
    now destruct (b (SelectSpots (lit "created_at") false 500%float)).
Qed.

(** ** Average rating *)

Lemma sum_ratings_snoc (rs : list Review.t) (r : Review.t) :
  Index.sum_ratings (rs ++ [r])
    = PrimFloat.add (Index.sum_ratings rs) (Review.rating r).
Proof. unfold Index.sum_ratings. now rewrite fold_left_app. Qed.

Lemma int_of_pos_rec (p : positive) :
  forall k, (Pos.size_nat p <= k)%nat ->
            Uint63Axioms.of_pos_rec k p = int_of_pos p.
Proof.
  induction p as [p IH|p IH|]; intros [|k] H; cbn [Pos.size_nat] in H; try lia;
    cbn [Uint63Axioms.of_pos_rec int_of_pos]; try reflexivity;
    rewrite IH by lia; reflexivity.
Qed.

Lemma pow2_size_nat (p : positive) :
  (2 ^ Z.of_nat (Pos.size_nat p) <= 2 * Z.pos p)%Z.
Proof.
  induction p as [p IH|p IH|]; cbn [Pos.size_nat].
  - rewrite Nat2Z.inj_succ, Z.pow_succ_r by lia. lia.
  - rewrite Nat2Z.inj_succ, Z.pow_succ_r by lia. lia.
  - cbn. lia.
Qed.

(** [int_of_pos] builds the machine integer whose value is [p]. *)
Lemma int_of_pos_value (p : positive) :
  (Z.pos p < 2 ^ 63)%Z -> Uint63Axioms.to_Z (int_of_pos p) = Z.pos p.
Proof.
  intros H.
  assert (Hs : (Pos.size_nat p <= 63)%nat).
  { pose proof (pow2_size_nat p) as Hp.
    destruct (Compare_dec.le_lt_dec (Pos.size_nat p) 63) as [L|L]; [exact L|].
    assert ((2 ^ 64 <= 2 ^ Z.of_nat (Pos.size_nat p))%Z)
      by (apply Z.pow_le_mono_r; lia).
    lia. }
  rewrite <- (@int_of_pos_rec p 63 Hs).
  rewrite (Uint63.of_pos_rec_spec 63 (le_n 63) p).
  apply Z.mod_small. change (Z.of_nat 63) with 63%Z. lia.
Qed.

(** The number that holds a length denotes the binary64 conversion of that
    length. *)
Lemma number_of_nat_ieee (n : nat) :
  (Z.of_nat n < 2 ^ 63)%Z ->
  FloatOps.Prim2SF (number_of_nat n) = ieee_of_count n.
Proof.
  intros H. unfold number_of_nat, ieee_of_count.
  destruct n as [|n]; [reflexivity|].
  rewrite <- nat_N_Z in *.
  destruct (N.of_nat (S n)) as [|p] eqn:E; [discriminate|].
  rewrite FloatAxioms.of_uint63_spec, int_of_pos_value; [reflexivity|exact H].
Qed.

Lemma sum_ratings_ieee (reviews : list Review.t) (acc : number) :
  FloatOps.Prim2SF
    (fold_left (fun sum r => PrimFloat.add sum (Review.rating r)) reviews acc)
  = fold_left FloatAxioms.SF64add
      (map (fun r => FloatOps.Prim2SF (Review.rating r)) reviews)
      (FloatOps.Prim2SF acc).
Proof.
  revert acc. induction reviews as [|r rs IH]; intros acc; [reflexivity|].
  cbn [fold_left map]. rewrite IH, FloatAxioms.add_spec. reflexivity.
Qed.

Lemma counts_exact_upto (bound n : nat) :
  forallb (fun k => represents (ieee_of_count k) (Z.of_nat k))
          (List.seq 0 (S bound)) = true ->
  (n <= bound)%nat -> represents (ieee_of_count n) (Z.of_nat n) = true.
Proof.
  intros H Hn. rewrite forallb_forall in H. apply H. apply in_seq. lia.
Qed.

(** C3: [avgRating] is 0 when no review is loaded.  Otherwise the value it
    denotes is the arithmetic mean of the ratings of the loaded reviews in
    binary64 arithmetic: their sum, added from the left starting at 0,
    divided by their count, where the count enters as its binary64
    conversion, which is the count itself at least up to 4096 reviews.  For
    two reviews rated 3 and 5, in either order, it is 4.0. *)
Theorem avgRating_is_mean :
  Index.avgRating [] = 0%float /\
  (forall reviews : list Review.t,
      reviews <> [] ->
      (Z.of_nat (List.length reviews) < 2 ^ 63)%Z ->
      FloatOps.Prim2SF (Index.avgRating reviews)
        = ieee_mean (map (fun r => FloatOps.Prim2SF (Review.rating r)) reviews)) /\
  (forall n : nat,
      (n <= 4096)%nat -> represents (ieee_of_count n) (Z.of_nat n) = true) /\
  (forall a b : Review.t,
      Review.rating a = 3%float -> Review.rating b = 5%float ->
      Index.avgRating [a; b] = 4.0%float /\ Index.avgRating [b; a] = 4.0%float).
Proof.
  split; [reflexivity|]. split; [|split].
  - intros reviews Hne Hlen. destruct reviews as [|r rs]; [congruence|].
    unfold Index.avgRating, ieee_mean, ieee_sum, Index.sum_ratings.
    rewrite FloatAxioms.div_spec, sum_ratings_ieee, number_of_nat_ieee
      by exact Hlen.
    rewrite length_map. reflexivity.
  - intros n. apply counts_exact_upto. vm_compute. reflexivity.
  - intros a b Ha Hb. unfold Index.avgRating, Index.sum_ratings. cbn [fold_left].
    rewrite Ha, Hb. split; reflexivity.
Qed.

Lemma avgRating_is_mean_witness :
  FloatOps.Prim2SF
    (Index.avgRating [review_of 5%float; review_of 4%float; review_of 4%float])
  = ieee_mean (map (fun r => FloatOps.Prim2SF (Review.rating r))
                   [review_of 5%float; review_of 4%float; review_of 4%float]) /\
  Index.avgRating [review_of 3%float; review_of 5%float] = 4.0%float /\
  Index.avgRating [review_of 5%float; review_of 3%float] = 4.0%float.
Proof.
  destruct avgRating_is_mean as (_ & Hmean & _ & H35).
  split.
  - apply (Hmean [review_of 5%float; review_of 4%float; review_of 4%float]).
    + discriminate.
    + reflexivity.
  - apply (H35 (review_of 3%float) (review_of 5%float)); reflexivity.
Defined.

(** ** Places *)

Lemma toPlace_resolved (el : value) :
  nullish el = false ->
  Nearby.toPlace el = Some (if resolvable el then Some (place_of el) else None).
Proof.
  intros H. unfold Nearby.toPlace, resolvable, place_of, resolved, direct, centered.
  destruct el as [| |flag|n|text|elems|fields]; try discriminate H; try reflexivity.
  change (get (Obj fields) "lat") with (Some (get_opt (Obj fields) "lat")).
  change (get (Obj fields) "lon") with (Some (get_opt (Obj fields) "lon")).
  cbv iota beta zeta.
  destruct (coalesce (get_opt (Obj fields) "lat")
              (get_opt (get_opt (Obj fields) "center") "lat"));
    destruct (coalesce (get_opt (Obj fields) "lon")
                (get_opt (get_opt (Obj fields) "center") "lon")); reflexivity.
Qed.

Lemma toPlace_throws (el : value) :
  nullish el = true -> Nearby.toPlace el = None.
Proof. destruct el; intros H; try discriminate H; reflexivity. Qed.

Lemma normalize_elements_resolved (els : list value) :
  (forall el, In el els -> nullish el = false) ->
  Nearby.normalize_elements els = Some (map place_of (filter resolvable els)).
Proof.
  unfold Nearby.normalize_elements.
  induction els as [|el els IH]; intros H; [reflexivity|].
  cbn [Nearby.map_throwing filter].
  rewrite (toPlace_resolved el) by (apply H; now left).
  destruct (Nearby.map_throwing Nearby.toPlace els) as [r|] eqn:E.
  - assert (IH' := IH (fun x Hx => H x (or_intror Hx))).
    injection IH' as IH'.
    destruct (resolvable el); cbn [Nearby.filter_Boolean map]; now rewrite IH'.
  - now specialize (IH (fun x Hx => H x (or_intror Hx))).
Qed.

Lemma normalize_elements_throws (els : list value) :
  (exists el, In el els /\ nullish el = true) ->
  Nearby.normalize_elements els = None.
Proof.
  unfold Nearby.normalize_elements.
  induction els as [|x els IH]; intros (el & Hin & Hn); [destruct Hin|].
  cbn [Nearby.map_throwing].
  destruct Hin as [->|Hin].
  - now rewrite (toPlace_throws _ Hn).
  - destruct (Nearby.toPlace x) as [y|]; [|reflexivity].
    destruct (Nearby.map_throwing Nearby.toPlace els) as [r|]; [|reflexivity].
    assert (C : Some (Nearby.filter_Boolean r) = None)
      by (apply IH; now exists el).
    discriminate C.
Qed.




(** ** Ratings of review inserts *)

Lemma Stars_values_in_range (n : number) :
  In n Index.Stars_values -> rating_in_range n = true.
Proof.
  unfold Index.Stars_values.
  intros [<-|[<-|[<-|[<-|[<-|[]]]]]]; reflexivity.
Qed.

(** A cell that holds 0 or a star value and passes [0 < r] holds a star. *)
Lemma positive_cell_is_star (r : number) :
  In r (0%float :: Index.Stars_values) ->
  PrimFloat.ltb 0%float r = true -> In r Index.Stars_values.
Proof.
  intros [<-|H] Hpos; [|exact H]. vm_compute in Hpos. discriminate.
Qed.

(** A cell that holds 0 or a star value and fails [r <= 0] holds a star. *)
Lemma chosen_cell_is_star (r : number) :
  In r (0%float :: Index.Stars_values) ->
  PrimFloat.leb r 0%float = false -> In r Index.Stars_values.
Proof.
  intros [<-|H] Hpos; [|exact H]. vm_compute in Hpos. discriminate.
Qed.

Ltac cells :=
  cbn [Index.places Index.placesLoading Index.spots Index.error Index.region
       Index.loading Index.spotRating Index.detailsOpen Index.selectedSpot
       Index.spotReviews Index.newReviewRating Index.newReviewComment
       Index.createOpen Index.pendingCoord Index.spotName Index.spotDesc
       Index.setPlaces Index.setPlacesLoading Index.setSpots Index.setError
       Index.setRegion Index.setLoading Index.setSpotRating Index.setDetailsOpen
       Index.setSelectedSpot Index.setSpotReviews Index.setNewReviewRating
       Index.setNewReviewComment Index.setCreateOpen Index.setPendingCoord
       Index.setSpotName Index.setSpotDesc].

Ltac preserved :=
  unfold preserves, state_ok;
  let st := fresh "st" in
  let Hs := fresh "Hs" in
  let Hn := fresh "Hn" in
  let Hd := fresh "Hd" in
  intros st (Hs & Hn & Hd); cells;
  repeat split;
  first [ assumption
        | now left
        | discriminate
        | (intros _; discriminate)
        | idtac ].

Lemma advance_safe (p : prog Index.state) :
  forall (g : Index.state -> Index.state) (st : Index.state),
    safe p g -> state_ok st ->
    state_ok (fst (advance p (g st))) /\
    Forall task_ok (Index.suspended (snd (advance p (g st)))) /\
    Forall request_ok (Index.sent (snd (advance p (g st)))).
Proof.
  induction p as [|f k IH|q k _]; intros g st Hsafe Hst; cbn [advance safe] in *.
  - split; [now apply Hsafe|]. split; constructor.
  - apply (IH (fun st => f (g st)) st Hsafe Hst).
  - destruct Hsafe as (Hg & Hq & Hk). split; [now apply Hg|].
    split; repeat constructor; assumption.
Qed.

Lemma safe_seq (p q : prog Index.state) :
  forall g,
    safe p g ->
    (forall g', preserves g' -> safe q g') ->
    safe (seq p q) g.
Proof.
  induction p as [|f k IH|r k IH]; intros g Hp Hq; cbn [seq safe] in *.
  - now apply Hq.
  - now apply IH.
  - destruct Hp as (Hg & Hr & Hk). split; [exact Hg|]. split; [exact Hr|].
    intros x. now apply IH.
Qed.

Lemma loadReviews_safe (spotId : jsstring) (g : Index.state -> Index.state) :
  preserves g -> safe (Index.loadReviews spotId) g.
Proof.
  intros Hg. unfold Index.loadReviews. cbn [safe].
  split; [exact Hg|]. split; [exact I|].
  intros [data|e]; cbn [safe]; preserved.
Qed.

Lemma reload_safe : safe Index.reload (fun st => st).
Proof.
  unfold Index.reload. cbn [safe]. split; [preserved|]. split; [exact I|].
  intros [data|e]; cbn [safe]; preserved.
Qed.

Lemma locate_safe (web : bool) : safe (Index.locate web) (fun st => st).
Proof.
  unfold Index.locate. destruct web; cbn [safe]; [preserved|].
  split; [preserved|]. split; [exact I|].
  intros [|]; cbn [negb safe]; [|preserved].
  split; [preserved|]. split; [exact I|]. intros pos. preserved.
Qed.

Lemma createSpotAt_safe (lat lng : number) (name : jsstring)
    (description : option jsstring) (initialRating : option number) :
  In (nullish_or initialRating 0%float) (0%float :: Index.Stars_values) ->
  safe (Index.createSpotAt lat lng name description initialRating) (fun st => st).
Proof.
  intros Hr. unfold Index.createSpotAt. cbn [safe].
  destruct (falsy_str (trim name)); cbn [safe]; [preserved|].
  split; [preserved|]. split; [exact I|].
  intros [spot|spotErr]; [|cbn [safe]; preserved].
  apply safe_seq.
  - destruct (PrimFloat.ltb 0%float (nullish_or initialRating 0%float)) eqn:Hpos;
      cbn [safe]; [|preserved].
    split; [preserved|]. split; [now apply positive_cell_is_star|].
    intros [u|reviewErr]; cbn [safe]; preserved.
  - intros g' Hg'. cbn [safe]. intros st Hst.
    specialize (Hg' st Hst). revert Hg'. generalize (g' st). preserved.
Qed.

Lemma deleteSpotById_safe (c : Index.state) (id : jsstring) :
  safe (Index.deleteSpotById c id) (fun st => st).
Proof.
  unfold Index.deleteSpotById. cbn [safe]. split; [preserved|]. split; [exact I|].
  intros [u|e]; cbn [safe]; [|preserved].
  destruct (Index.selected_has_id (Index.selectedSpot c) id); cbn [safe]; preserved.
Qed.

Lemma addReviewForSelectedSpot_safe (c : Index.state) :
  state_ok c -> safe (Index.addReviewForSelectedSpot c) (fun st => st).
Proof.
  intros (_ & Hn & _). unfold Index.addReviewForSelectedSpot.
  destruct (Index.selectedSpot c) as [sel|]; cbn [safe]; [|preserved].
  destruct (PrimFloat.leb (Index.newReviewRating c) 0%float) eqn:Hz;
    cbn [safe]; [preserved|].
  split; [preserved|]. split; [now apply chosen_cell_is_star|].
  intros [u|e]; cbn [safe]; [|preserved].
  apply loadReviews_safe. preserved.
Qed.

Lemma confirmDelete_safe (c : Index.state) (spot : Spot.t) :
  safe (Index.confirmDelete c spot) (fun st => st).
Proof.
  unfold Index.confirmDelete. cbn [safe]. split; [preserved|]. split; [exact I|].
  intros [|]; [apply deleteSpotById_safe|cbn [safe]; preserved].
Qed.

Lemma native_handler_safe (c : Index.state) (ev : Index.event) :
  state_ok c -> Index.offered_native c ev ->
  safe (Index.handler false c ev) (fun st => st).
Proof.
  intros Hc Hev. destruct ev; cbn [Index.handler Index.offered_native] in *.
  - apply reload_safe.
  - apply locate_safe.
  - unfold Index.onLongPress. cbn [safe]. preserved.
  - cbn [safe]. preserved.
  - cbn [safe]. preserved.
  - destruct Hev as [_ Hn]. unfold Index.Stars_press. cbn [safe]. preserved.
    now right.
  - unfold Index.pressCreate. destruct (Index.pendingCoord c) as [[lat lng]|];
      [|cbn [safe]; preserved].
    apply safe_seq.
    + apply createSpotAt_safe. apply Hc.
    + intros g' Hg'. cbn [safe]. intros st Hst.
      specialize (Hg' st Hst). revert Hg'. generalize (g' st). preserved.
  - cbn [safe]. preserved.
  - unfold Index.openSpotDetails. apply loadReviews_safe. preserved.
  - unfold Index.Stars_press. cbn [safe]. preserved.
  - destruct Hev as [_ Hn]. unfold Index.Stars_press. cbn [safe]. preserved.
    now right.
  - cbn [safe]. preserved.
  - now apply addReviewForSelectedSpot_safe.
  - cbn [safe]. preserved.
  - apply confirmDelete_safe.
  - cbn [safe]. preserved.
Qed.

Lemma web_handler_safe (c : Index.state) (ev : Index.event) :
  Index.offered_web c ev -> safe (Index.handler true c ev) (fun st => st).
Proof.
  intros Hev.
  destruct ev; cbn [Index.handler Index.offered_web] in *; try contradiction.
  - apply reload_safe.
  - apply locate_safe.
  - apply confirmDelete_safe.
Qed.

Lemma handler_safe (web : bool) (c : Index.state) (ev : Index.event) :
  state_ok c -> Index.enabled web c ev ->
  safe (Index.handler web c ev) (fun st => st).
Proof.
  intros Hc Hev. destruct web.
  - now apply web_handler_safe.
  - now apply native_handler_safe.
Qed.

Lemma boot_ok : system_ok Index.boot.
Proof.
  split; [|constructor].
  unfold state_ok, Index.boot, Index.initial. cells.
  repeat split; [now left|now left|discriminate].
Qed.

Lemma step_ok (web : bool) (s s' : Index.system) (tr : list request) :
  system_ok s -> Index.step web s tr s' -> system_ok s' /\ Forall request_ok tr.
Proof.
  intros [Hui Hfl] Hstep.
  destruct Hstep as [s ev st' t Hev Hadv | s before q k after resp st' t Hin Hadv].
  - pose proof (@advance_safe (Index.handler web (Index.ui s) ev) (fun st => st)
                  (Index.ui s) (handler_safe _ _ Hui Hev) Hui) as (H1 & H2 & H3).
    rewrite Hadv in H1, H2, H3. cbn [fst snd] in *.
    split; [split|]; cbn [Index.ui Index.inflight]; try assumption.
    apply Forall_app. now split.
  - rewrite Hin in Hfl. apply Forall_app in Hfl. destruct Hfl as [Hb Hrest].
    inversion Hrest as [|x l [_ Hk] Ha]; subst.
    cbn [projT2] in Hk.
    pose proof (@advance_safe (k resp) (fun st => st) (Index.ui s) (Hk resp) Hui)
      as (H1 & H2 & H3).
    rewrite Hadv in H1, H2, H3. cbn [fst snd] in *.
    split; [split|]; cbn [Index.ui Index.inflight]; try assumption.
    apply Forall_app. split; [exact Hb|]. apply Forall_app. now split.
Qed.

Lemma steps_ok (web : bool) (s s' : Index.system) (tr : list request) :
  system_ok s -> Index.steps web s tr s' -> system_ok s' /\ Forall request_ok tr.
Proof.
  intros Hs Hsteps. induction Hsteps as [s|s tr s' tr' s'' _ IH Hstep].
  - split; [exact Hs|constructor].
  - destruct (IH Hs) as [Hs' Htr].
    destruct (step_ok Hs' Hstep) as [Hs'' Htr'].
    split; [exact Hs''|]. apply Forall_app. now split.
Qed.

(** A turn of the event loop, computed. *)
Ltac advanced :=
  match goal with
  | |- advance ?p ?st = _ =>
      let v := eval vm_compute in (advance p st) in
      exact (@eq_refl _ v <: advance p st = v)
  end.

(** A native execution that sends a review insert: long press, third star,
    a name, Create, and the answer to the spot insert. *)
Lemma execution_with_review :
  exists tr s,
    Index.steps false Index.boot tr s /\
    In (InsertReview (lit "s3") 3%float) tr.
Proof.
  eexists. eexists. split.
  - eapply Index.steps_cons.
    { eapply Index.steps_cons.
      { eapply Index.steps_cons.
        { eapply Index.steps_cons.
          { eapply Index.steps_cons.
            { apply Index.steps_nil. }
            eapply Index.step_event with (ev := Index.LongPress 1%float 2%float);
              [exact I|advanced]. }
          eapply Index.step_event with (ev := Index.PressSpotStar 3%float);
            [split; [reflexivity|cbn; tauto]|advanced]. }
        eapply Index.step_event with (ev := Index.ChangeSpotName (lit "Bowl"));
          [reflexivity|advanced]. }
      eapply Index.step_event with (ev := Index.PressCreate);
        [reflexivity|advanced]. }
    eapply Index.step_reply
      with (before := []) (after := [])
           (q := InsertSpot (lit "Bowl") None 1%float 2%float)
           (resp := Ok (Spot.mk (lit "s3") (lit "Bowl") None 1%float 2%float
                                (lit "2024-05-04")));
      [reflexivity|advanced].
  - cbn. tauto.
Qed.

(** C7: every review the screen sends carries a rating in [1,5].  In every
    reachable state with the details modal open, [addReviewForSelectedSpot]
    answers a rating [<= 0] by setting the error state to 'Please choose a
    rating.' and sends nothing; a [Stars] control only produces the values
    1, 2, 3, 4 and 5; and along every execution of the screen, whatever the
    backend answers and however the handlers interleave, each review insert
    carries one of those five values. *)
Theorem review_inserts_carry_star_ratings :
  (forall web tr s (b : backend),
      Index.steps web Index.boot tr s ->
      Index.detailsOpen (Index.ui s) = true ->
      PrimFloat.leb (Index.newReviewRating (Index.ui s)) 0%float = true ->
      let out := run b (Index.addReviewForSelectedSpot (Index.ui s)) (Index.ui s) in
      Index.error (fst out) = Some (lit "Please choose a rating.") /\
      snd out = []) /\
  (forall n, In n Index.Stars_values ->
             rating_in_range n = true /\
             (n = 1 \/ n = 2 \/ n = 3 \/ n = 4 \/ n = 5)%float) /\
  (forall web tr s,
      Index.steps web Index.boot tr s ->
      forall spot_id rating,
        In (InsertReview spot_id rating) tr ->
        In rating Index.Stars_values /\ rating_in_range rating = true).
Proof.
  split; [|split].
  - intros web tr s b Hsteps Hopen Hz. cbv zeta.
    destruct (steps_ok boot_ok Hsteps) as [[(_ & _ & Hsel) _] _].
    specialize (Hsel Hopen).
    unfold Index.addReviewForSelectedSpot.
    destruct (Index.selectedSpot (Index.ui s)) as [sel|]; [|congruence].
    cbn [run]. rewrite Hz. cbn. now split.
  - intros n Hn. split; [now apply Stars_values_in_range|].
    unfold Index.Stars_values in Hn. cbn [In] in Hn.
    intuition congruence.
  - intros web tr s Hsteps spot_id rating Hin.
    destruct (steps_ok boot_ok Hsteps) as [_ Htr].
    rewrite Forall_forall in Htr. specialize (Htr _ Hin). cbn in Htr.
    split; [exact Htr|now apply Stars_values_in_range].
Qed.

Lemma review_inserts_carry_star_ratings_witness :
  In 3%float Index.Stars_values /\ rating_in_range 3%float = true.
Proof.
  destruct execution_with_review as (tr & s & Hsteps & Hin).
  destruct review_inserts_carry_star_ratings as (_ & _ & H).
  exact (H false tr s Hsteps (lit "s3") 3%float Hin).
Defined.

(* ================================================================= *)
(** * Further properties *)

(** ** Creating and deleting *)

Lemma createSpotAt_spots (b : backend) (lat lng : number) (name : jsstring)
    (description : option jsstring) (initialRating : option number)
    (spot : Spot.t) (st : Index.state) :
  trim name <> [] ->
  b (InsertSpot (trim name) (or_null (trim (nullish_or description []))) lat lng)
    = Ok spot ->
  Index.spots (fst (run b (Index.createSpotAt lat lng name description initialRating) st))
    = spot :: Index.spots st.
Proof.
  intros Hname Hspot. apply falsy_str_cons in Hname.
  unfold Index.createSpotAt. cbn [run]. rewrite Hname. cbn [run]. rewrite Hspot.
  rewrite run_seq.
  destruct (PrimFloat.ltb 0%float (nullish_or initialRating 0%float)); cbn [run].
  - destruct (b (InsertReview (Spot.id spot) (nullish_or initialRating 0%float)));
      reflexivity.
  - reflexivity.
Qed.

(** When the spot insert succeeds and no review insert fails, [createSpotAt]
    ends with the returned row in front of the list and with no error: the
    final state is the initial one with just these two cells changed.  Both
    variants of the screen agree. *)
Theorem createSpotAt_success_prepends :
  forall (b : backend) (lat lng : number) (name : jsstring)
         (description : option jsstring) (initialRating : option number)
         (spot : Spot.t) (st : Index.state) (st0 : Part000.state),
    trim name <> [] ->
    b (InsertSpot (trim name) (or_null (trim (nullish_or description []))) lat lng)
      = Ok spot ->
    PrimFloat.ltb 0%float (nullish_or initialRating 0%float) = false \/
    b (InsertReview (Spot.id spot) (nullish_or initialRating 0%float)) = Ok tt ->
    fst (run b (Index.createSpotAt lat lng name description initialRating) st)
      = Index.setSpots (cons spot) (Index.setError None st) /\
    fst (run b (Part000.createSpotAt lat lng name description) st0)
      = Part000.setSpots (cons spot) (Part000.setError None st0).
Proof.
  intros b lat lng name description initialRating spot st st0 Hname Hspot Hrev.
  apply falsy_str_cons in Hname.
  unfold Index.createSpotAt, Part000.createSpotAt. cbn [run]. rewrite Hname.
  cbn [run]. rewrite Hspot. split; [|reflexivity].
  rewrite run_seq.
  destruct (PrimFloat.ltb 0%float (nullish_or initialRating 0%float)) eqn:E;
    cbn [run]; [|reflexivity].
  destruct Hrev as [Hrev|Hrev]; [discriminate|]. rewrite Hrev. reflexivity.
Qed.

Lemma createSpotAt_success_prepends_witness :
  Index.spots (fst (run backend_up
                      (Index.createSpotAt 1%float 2%float (lit " Bowl ") None
                                          (Some 4%float))
                      viewing_ledges))
    = [Spot.mk (lit "s3") (lit "Bowl") None 1%float 2%float (lit "2024-05-04");
       rails; ledges].
Proof.
  pose proof (@createSpotAt_success_prepends backend_up 1%float 2%float
                (lit " Bowl ") None (Some 4%float)
                (Spot.mk (lit "s3") (lit "Bowl") None 1%float 2%float
                         (lit "2024-05-04"))
                viewing_ledges Part000.initial) as H.
  destruct H as [H _].
  - discriminate.
  - reflexivity.
  - right. reflexivity.
  - rewrite H. reflexivity.
Defined.

Lemma filter_absent (id : jsstring) (l : list Spot.t) :
  absent id l -> filter (fun s => negb (str_eqb (Spot.id s) id)) l = l.
Proof.
  unfold absent. induction l as [|s l IH]; intros H; simpl; [reflexivity|].
  destruct (str_eqb (Spot.id s) id) eqn:E.
  - apply str_eqb_eq in E. now destruct (H s (or_introl eq_refl)).
  - simpl. f_equal. apply IH. intros x Hx. apply H. now right.
Qed.

Lemma filter_is_absent (id : jsstring) (l : list Spot.t) :
  absent id (filter (fun s => negb (str_eqb (Spot.id s) id)) l).
Proof.
  intros s Hs. apply filter_In in Hs. destruct Hs as [_ Hs].
  intros E. apply str_eqb_eq in E. rewrite E in Hs. discriminate.
Qed.

Lemma deleteSpotById_spots (b : backend) (id : jsstring) (u : unit)
    (c st : Index.state) :
  b (DeleteSpot id) = Ok u ->
  Index.spots (fst (run b (Index.deleteSpotById c id) st))
    = filter (fun s => negb (str_eqb (Spot.id s) id)) (Index.spots st).
Proof.
  intros H. unfold Index.deleteSpotById. cbn [run]. rewrite H. cbn [run].
  now destruct (Index.selected_has_id (Index.selectedSpot c) id).
Qed.

(** Creating a spot and then deleting it by the id the backend gave it
    brings the local list back to what it was, provided no spot of the list
    had that id; this holds whether or not the review insert of the
    creation failed. *)
Theorem create_then_delete_restores_list :
  forall (b : backend) (lat lng : number) (name : jsstring)
         (description : option jsstring) (initialRating : option number)
         (spot : Spot.t) (u : unit) (st : Index.state),
    trim name <> [] ->
    b (InsertSpot (trim name) (or_null (trim (nullish_or description []))) lat lng)
      = Ok spot ->
    b (DeleteSpot (Spot.id spot)) = Ok u ->
    absent (Spot.id spot) (Index.spots st) ->
    let st1 := fst (run b (Index.createSpotAt lat lng name description initialRating) st) in
    let st2 := fst (run b (Index.deleteSpotById st1 (Spot.id spot)) st1) in
    Index.spots st1 = spot :: Index.spots st /\
    Index.spots st2 = Index.spots st.
Proof.
  intros b lat lng name description initialRating spot u st Hname Hspot Hdel Habs.
  cbv zeta.
  rewrite (deleteSpotById_spots _ _ _ Hdel).
  rewrite (createSpotAt_spots _ _ _ _ _ Hname Hspot).
  split; [reflexivity|]. cbn [filter]. rewrite str_eqb_refl. cbn [negb].
  now apply filter_absent.
Qed.

Lemma create_then_delete_restores_list_witness :
  let st1 := fst (run backend_up
                    (Index.createSpotAt 1%float 2%float (lit "Bowl") None None)
                    viewing_ledges) in
  Index.spots (fst (run backend_up (Index.deleteSpotById st1 (lit "s3")) st1))
    = [rails; ledges].
Proof.
  apply (@create_then_delete_restores_list backend_up 1%float 2%float (lit "Bowl")
           None None
           (Spot.mk (lit "s3") (lit "Bowl") None 1%float 2%float (lit "2024-05-04"))
           tt viewing_ledges).
  - discriminate.
  - reflexivity.
  - reflexivity.
  - intros s [<-|[<-|[]]]; discriminate.
Defined.

(** After a successful [deleteSpotById(id)] no spot of the list has that
    id and the list is no longer than before; if no spot had the id, the
    list is unchanged; and deleting the same id again changes nothing. *)
Theorem deleteSpotById_idempotent :
  forall (b : backend) (id : jsstring) (u : unit) (st : Index.state),
    b (DeleteSpot id) = Ok u ->
    let st1 := fst (run b (Index.deleteSpotById st id) st) in
    let st2 := fst (run b (Index.deleteSpotById st1 id) st1) in
    absent id (Index.spots st1) /\
    List.length (Index.spots st1) <= List.length (Index.spots st) /\
    (absent id (Index.spots st) -> Index.spots st1 = Index.spots st) /\
    Index.spots st2 = Index.spots st1.
Proof.
  intros b id u st H. cbv zeta.
  rewrite !(deleteSpotById_spots _ _ _ H).
  split; [apply filter_is_absent|]. split; [apply filter_length_le|].
  split; [apply filter_absent|].
  apply filter_absent, filter_is_absent.
Qed.

Lemma deleteSpotById_idempotent_witness :
  let st1 := fst (run backend_up (Index.deleteSpotById viewing_ledges (lit "s1"))
                      viewing_ledges) in
  Index.spots (fst (run backend_up (Index.deleteSpotById st1 (lit "s1")) st1))
    = Index.spots st1.
Proof.
  apply (@deleteSpotById_idempotent backend_up (lit "s1") tt viewing_ledges).
  reflexivity.
Defined.

(** ** The two variants of the screen *)

(** On the cells they share, the spots list and the error, the two
    variants of the screen do the same: from states that agree on these
    cells, [reload], [deleteSpotById] and, without a positive initial
    rating, [createSpotAt] send the same requests and end in states that
    agree again. *)
Theorem variants_agree :
  forall (b : backend) (st : Index.state) (st0 : Part000.state),
    same_cells st st0 ->
    (let out := run b Index.reload st in
     let out0 := run b Part000.reload st0 in
     same_cells (fst out) (fst out0) /\ snd out = snd out0) /\
    (forall c id,
        let out := run b (Index.deleteSpotById c id) st in
        let out0 := run b (Part000.deleteSpotById id) st0 in
        same_cells (fst out) (fst out0) /\ snd out = snd out0) /\
    (forall (lat lng : number) (name : jsstring) (description : option jsstring)
            (initialRating : option number),
        PrimFloat.ltb 0%float (nullish_or initialRating 0%float) = false ->
        let out := run b (Index.createSpotAt lat lng name description initialRating) st in
        let out0 := run b (Part000.createSpotAt lat lng name description) st0 in
        same_cells (fst out) (fst out0) /\ snd out = snd out0).
Proof.
  intros b st st0 [Hs He]. unfold same_cells. split; [|split].
  - unfold Index.reload, Part000.reload. cbn [run].
    destruct (b (SelectSpots (lit "created_at") false 500%float)); cbn; auto.
  - intros c id. unfold Index.deleteSpotById, Part000.deleteSpotById. cbn [run].
    destruct (b (DeleteSpot id)); cbn [run]; [|cbn; auto].
    destruct (Index.selected_has_id (Index.selectedSpot c) id); cbn;
      rewrite Hs; auto.
  - intros lat lng name description initialRating Hr.
    unfold Index.createSpotAt, Part000.createSpotAt. cbn [run].
    destruct (falsy_str (trim name)); cbn [run]; [cbn; auto|].
    destruct (b (InsertSpot (trim name) (or_null (trim (nullish_or description [])))
                            lat lng)); cbn [run]; [|cbn; auto].
    rewrite run_seq, Hr. cbn. rewrite Hs. auto.
Qed.

Lemma variants_agree_witness :
  snd (run backend_up (Index.createSpotAt 1%float 2%float (lit "Bowl") None None)
           Index.initial)
  = snd (run backend_up (Part000.createSpotAt 1%float 2%float (lit "Bowl") None)
             Part000.initial).
Proof.
  destruct (@variants_agree backend_up Index.initial Part000.initial) as (_ & _ & H).
  - split; reflexivity.
  - apply (H 1%float 2%float (lit "Bowl") None None). reflexivity.
Defined.

(** ** Reviews *)

(** [openSpotDetails(spot)] sends exactly one request, the select of that
    spot's reviews, most recent first.  It ends with the spot selected, the
    modal open, the rating and the comment of the form reset, and the
    loaded reviews equal to the rows returned, or empty with the error's
    message shown when the select fails.  On success it leaves the error
    cell as it was: an earlier error stays on screen. *)
Theorem openSpotDetails_loads_reviews :
  forall (b : backend) (spot : Spot.t) (st : Index.state),
    let out := run b (Index.openSpotDetails spot) st in
    let st' := fst out in
    snd out = [SelectReviews (Spot.id spot) (lit "created_at") false] /\
    Index.selectedSpot st' = Some spot /\
    Index.detailsOpen st' = true /\
    Index.newReviewRating st' = 0%float /\
    Index.newReviewComment st' = [] /\
    Index.spots st' = Index.spots st /\
    match b (SelectReviews (Spot.id spot) (lit "created_at") false) with
    | Ok data => Index.spotReviews st' = data /\ Index.error st' = Index.error st
    | Failed e => Index.spotReviews st' = [] /\ Index.error st' = Some (message e)
    end.
Proof.
  intros b spot st. cbv zeta.
  unfold Index.openSpotDetails, Index.loadReviews. cbn [run].
  destruct (b (SelectReviews (Spot.id spot) (lit "created_at") false));
    cbn; repeat split.
Qed.

(** [addReviewForSelectedSpot()] with a selected spot and a rating that
    passes the guard: when the insert succeeds it sends the insert and then
    the select of that spot's reviews, and resets the rating and the comment
    of the form; when the insert fails it sends nothing more, shows the
    error's message and keeps the rating, the comment and the loaded
    reviews, so the user can submit again. *)
Theorem addReview_outcomes :
  forall (b : backend) (sel : Spot.t) (st : Index.state),
    Index.selectedSpot st = Some sel ->
    PrimFloat.leb (Index.newReviewRating st) 0%float = false ->
    let out := run b (Index.addReviewForSelectedSpot st) st in
    let st' := fst out in
    let ins := InsertReview (Spot.id sel) (Index.newReviewRating st) in
    let sel_q := SelectReviews (Spot.id sel) (lit "created_at") false in
    match b ins with
    | Ok _ =>
        snd out = [ins; sel_q] /\
        Index.newReviewRating st' = 0%float /\
        Index.newReviewComment st' = [] /\
        match b sel_q with
        | Ok data => Index.spotReviews st' = data /\ Index.error st' = None
        | Failed e =>
            Index.spotReviews st' = Index.spotReviews st /\
            Index.error st' = Some (message e)
        end
    | Failed e =>
        snd out = [ins] /\
        st' = Index.setError (Some (message e)) st
    end.
Proof.
  intros b sel st Hsel Hr. cbv zeta.
  unfold Index.addReviewForSelectedSpot, Index.loadReviews. rewrite Hsel.
  cbn [run]. rewrite Hr. cbn [run].
  destruct (b (InsertReview (Spot.id sel) (Index.newReviewRating st)));
    cbn [run]; [|split; reflexivity].
  destruct (b (SelectReviews (Spot.id sel) (lit "created_at") false));
    cbn; repeat split.
Qed.

Lemma addReview_outcomes_witness :
  snd (run backend_up
         (Index.addReviewForSelectedSpot (Index.setNewReviewRating 4%float viewing_ledges))
         (Index.setNewReviewRating 4%float viewing_ledges))
  = [InsertReview (lit "s1") 4%float;
     SelectReviews (lit "s1") (lit "created_at") false].
Proof.
  pose proof (@addReview_outcomes backend_up ledges
                (Index.setNewReviewRating 4%float viewing_ledges)
                eq_refl eq_refl) as H.
  exact (proj1 H).
Defined.

(** ** Invariants of the event loop *)

Lemma keeps_advance (I : Index.state -> Prop) (R : request -> Prop)
    (p : prog Index.state) :
  forall (g : Index.state -> Index.state) (st : Index.state),
    keeps I R p g -> I st ->
    I (fst (advance p (g st))) /\
    Forall (task_keeps I R) (Index.suspended (snd (advance p (g st)))) /\
    Forall R (Index.sent (snd (advance p (g st)))).
Proof.
  induction p as [|f k IH|q k _]; intros g st Hp Hst; cbn [advance keeps] in *.
  - split; [now apply Hp|]. split; constructor.
  - apply (IH (fun st => f (g st)) st Hp Hst).
  - destruct Hp as (Hg & Hq & Hk). split; [now apply Hg|].
    split; repeat constructor; assumption.
Qed.

Lemma keeps_step (web : bool) (I : Index.state -> Prop) (R : request -> Prop) :
  (forall c ev, I c -> Index.enabled web c ev ->
                keeps I R (Index.handler web c ev) (fun st => st)) ->
  forall s tr s',
    system_keeps I R s -> Index.step web s tr s' ->
    system_keeps I R s' /\ Forall R tr.
Proof.
  intros Hh s tr s' [Hui Hfl] Hstep.
  destruct Hstep as [s ev st' t Hev Hadv | s before q k after resp st' t Hin Hadv].
  - pose proof (@keeps_advance I R (Index.handler web (Index.ui s) ev)
                  (fun st => st) (Index.ui s) (Hh _ _ Hui Hev) Hui) as (H1 & H2 & H3).
    rewrite Hadv in H1, H2, H3. cbn [fst snd] in *.
    split; [split|]; cbn [Index.ui Index.inflight]; try assumption.
    apply Forall_app. now split.
  - rewrite Hin in Hfl. apply Forall_app in Hfl. destruct Hfl as [Hb Hrest].
    inversion Hrest as [|x l [_ Hk] Ha]; subst.
    cbn [projT2] in Hk.
    pose proof (@keeps_advance I R (k resp) (fun st => st) (Index.ui s)
                  (Hk resp) Hui) as (H1 & H2 & H3).
    rewrite Hadv in H1, H2, H3. cbn [fst snd] in *.
    split; [split|]; cbn [Index.ui Index.inflight]; try assumption.
    apply Forall_app. split; [exact Hb|]. apply Forall_app. now split.
Qed.

Lemma keeps_steps (web : bool) (I : Index.state -> Prop) (R : request -> Prop) :
  (forall c ev, I c -> Index.enabled web c ev ->
                keeps I R (Index.handler web c ev) (fun st => st)) ->
  forall s tr s',
    system_keeps I R s -> Index.steps web s tr s' ->
    system_keeps I R s' /\ Forall R tr.
Proof.
  intros Hh s tr s' Hs Hsteps.
  induction Hsteps as [s1|s1 tr1 s2 tr2 s3 _ IH Hstep].
  - split; [assumption|constructor].
  - destruct (IH Hs) as [H2 Htr1].
    destruct (keeps_step Hh H2 Hstep) as [H3 Htr2].
    split; [exact H3|]. apply Forall_app. now split.
Qed.

Lemma keeps_from_boot (web : bool) (I : Index.state -> Prop) (R : request -> Prop) :
  (forall c ev, I c -> Index.enabled web c ev ->
                keeps I R (Index.handler web c ev) (fun st => st)) ->
  I Index.initial ->
  forall tr s,
    Index.steps web Index.boot tr s -> I (Index.ui s) /\ Forall R tr.
Proof.
  intros Hh H0 tr s Hsteps.
  assert (Hboot : system_keeps I R Index.boot) by (split; [exact H0|constructor]).
  destruct (keeps_steps Hh Hboot Hsteps) as [[Hui _] Htr]. now split.
Qed.

Ltac unfold_handlers :=
  cbn [keeps seq Index.handler];
  unfold Index.reload, Index.locate, Index.onLongPress, Index.pressCreate,
    Index.openSpotDetails, Index.addReviewForSelectedSpot, Index.confirmDelete,
    Index.Stars_press, Index.createSpotAt, Index.deleteSpotById, Index.loadReviews.

Ltac keeps_cases :=
  repeat first
    [ progress cbn [keeps seq negb]
    | match goal with
      | |- keeps _ _ ?p _ =>
          match p with
          | context [match ?x with _ => _ end] => destruct x eqn:?
          end
      | |- _ /\ _ => split
      | |- forall _ : resp_type _, _ => intro
      end ].

Lemma trimStart_snoc (l : jsstring) (c : code_unit) :
  isWhiteSpace c = false -> trimStart (l ++ [c]) = trimStart l ++ [c].
Proof.
  intros Hc. induction l as [|x l IH]; simpl; [now rewrite Hc|].
  now destruct (isWhiteSpace x).
Qed.

(** A trimmed string that is not empty starts and ends with a visible code
    unit. *)
Lemma trim_trimmed (s : jsstring) : trim s <> [] -> trimmed (trim s) = true.
Proof.
  unfold trim, trimEnd.
  destruct (trimStart_head s) as [E|(c0 & u & E & Hc0)]; rewrite E; [easy|].
  intros _. cbn [rev]. rewrite (@trimStart_snoc (rev u) c0 Hc0), rev_app_distr.
  cbn [rev app].
  unfold trimmed. rewrite Hc0. cbn [negb andb].
  destruct (trimStart_head (rev u)) as [E'|(c & t & E' & Hc)]; rewrite E'.
  - cbn. now rewrite Hc0.
  - cbn [rev]. change (c0 :: rev t ++ [c]) with ((c0 :: rev t) ++ [c]).
    now rewrite last_last, Hc.
Qed.

Lemma or_null_trimmed (s : jsstring) :
  match or_null (trim s) with None => True | Some text => trimmed text = true end.
Proof.
  unfold or_null. destruct (falsy_str (trim s)) eqn:E; [exact I|].
  apply trim_trimmed. now apply falsy_str_cons.
Qed.

Lemma handlers_keep_coord (web : bool) (c : Index.state) (ev : Index.event) :
  create_has_coord c -> Index.enabled web c ev ->
  keeps create_has_coord (fun _ => True) (Index.handler web c ev) (fun st => st).
Proof.
  intros _ _. destruct ev; unfold_handlers; keeps_cases;
    try exact I;
    unfold create_has_coord; intros st Hst; cells;
    try assumption; try discriminate; intros _; discriminate.
Qed.

Lemma handlers_insert_ok (web : bool) (c : Index.state) (ev : Index.event) :
  True -> Index.enabled web c ev ->
  keeps (fun _ => True) insert_ok (Index.handler web c ev) (fun st => st).
Proof.
  intros _ _. destruct ev; unfold_handlers; keeps_cases;
    try exact I; try (intros; exact I).
  all: cbn [insert_ok]; split; [|apply or_null_trimmed].
  all: apply trim_trimmed; apply falsy_str_cons; assumption.
Qed.

Lemma web_handlers_stay (c : Index.state) (ev : Index.event) :
  no_modal c -> Index.enabled true c ev ->
  keeps no_modal web_request (Index.handler true c ev) (fun st => st).
Proof.
  intros [Hc Hd] Hev. unfold Index.enabled in Hev.
  destruct ev; cbn [Index.offered_web] in Hev; try contradiction;
    unfold_handlers; keeps_cases; try exact I;
    unfold no_modal; intros st [H1 H2]; cells; split;
    try assumption; reflexivity.
Qed.

Lemma createSpotAt_blank (b : backend) (lat lng : number) (name : jsstring)
    (description : option jsstring) (initialRating : option number)
    (st : Index.state) :
  trim name = [] ->
  run b (Index.createSpotAt lat lng name description initialRating) st
    = (Index.setError (Some (lit "Name is required")) st, []).
Proof.
  intros H. unfold Index.createSpotAt. cbn [run]. rewrite H. reflexivity.
Qed.

Lemma reachable_create_has_coord (web : bool) (tr : list request)
    (s : Index.system) :
  Index.steps web Index.boot tr s -> create_has_coord (Index.ui s).
Proof.
  intros Hsteps.
  destruct (@keeps_from_boot web create_has_coord (fun _ => True)
              (@handlers_keep_coord web)
              (fun H => False_ind _ (Bool.diff_false_true H)) tr s Hsteps)
    as [H _].
  exact H.
Qed.

(** In every state the screen can reach, on either platform and however
    the handlers interleave: the two rating cells hold 0 or one of 1..5, an
    open details modal has a selected spot, and an open create modal has
    pending coordinates.  So the early returns of the Submit and Create
    buttons for a missing spot or missing coordinates are never taken from
    a visible modal. *)
Theorem reachable_modals_have_their_data :
  forall (web : bool) (tr : list request) (s : Index.system),
    Index.steps web Index.boot tr s ->
    let st := Index.ui s in
    In (Index.spotRating st) (0%float :: Index.Stars_values) /\
    In (Index.newReviewRating st) (0%float :: Index.Stars_values) /\
    (Index.detailsOpen st = true -> Index.selectedSpot st <> None) /\
    (Index.createOpen st = true -> Index.pendingCoord st <> None).
Proof.
  intros web tr s Hsteps. cbv zeta.
  destruct (steps_ok boot_ok Hsteps) as [[(H1 & H2 & H3) _] _].
  pose proof (reachable_create_has_coord Hsteps) as H4.
  repeat split; assumption.
Qed.

(** A native execution that ends with both modals open: the spots load,
    the details of [ledges] are opened and its fourth star pressed, then a
    long press opens the create modal and its third star is pressed. *)
Lemma execution_with_both_modals :
  exists tr s,
    Index.steps false Index.boot tr s /\
    Index.createOpen (Index.ui s) = true /\
    Index.detailsOpen (Index.ui s) = true /\
    Index.spotRating (Index.ui s) = 3%float /\
    Index.newReviewRating (Index.ui s) = 4%float.
Proof.
  eexists. eexists. split.
  - eapply Index.steps_cons.
    { eapply Index.steps_cons.
      { eapply Index.steps_cons.
        { eapply Index.steps_cons.
          { eapply Index.steps_cons.
            { eapply Index.steps_cons.
              { apply Index.steps_nil. }
              eapply Index.step_event with (ev := Index.Mounted);
                [exact I|advanced]. }
            eapply Index.step_reply
              with (before := []) (after := [])
                   (q := SelectSpots (lit "created_at") false 500%float)
                   (resp := Ok [rails; ledges]);
              [reflexivity|advanced]. }
          eapply Index.step_event with (ev := Index.PressMarker ledges);
            [cbn; tauto|advanced]. }
        eapply Index.step_event with (ev := Index.PressReviewStar 4%float);
          [split; [reflexivity|cbn; tauto]|advanced]. }
      eapply Index.step_event with (ev := Index.LongPress 1%float 2%float);
        [exact I|advanced]. }
    eapply Index.step_event with (ev := Index.PressSpotStar 3%float);
      [split; [reflexivity|cbn; tauto]|advanced].
  - repeat split.
Qed.

Lemma reachable_modals_have_their_data_witness :
  exists s,
    Index.createOpen (Index.ui s) = true /\
    Index.detailsOpen (Index.ui s) = true /\
    Index.spotRating (Index.ui s) = 3%float /\
    Index.newReviewRating (Index.ui s) = 4%float /\
    In (Index.spotRating (Index.ui s)) (0%float :: Index.Stars_values) /\
    In (Index.newReviewRating (Index.ui s)) (0%float :: Index.Stars_values) /\
    (Index.detailsOpen (Index.ui s) = true ->
     Index.selectedSpot (Index.ui s) <> None) /\
    (Index.createOpen (Index.ui s) = true ->
     Index.pendingCoord (Index.ui s) <> None).
Proof.
  destruct execution_with_both_modals as (tr & s & Hsteps & Hc & Hd & Hr & Hn).
  exists s. repeat (split; [assumption|]).
  exact (@reachable_modals_have_their_data false tr s Hsteps).
Defined.

(** Pressing Create in a reachable state with the create modal open always
    ends with the modal closed, whatever the backend answers: also when the
    name is blank or the insert fails, in which case only the error banner
    tells the user that nothing was created. *)
Theorem pressCreate_closes_modal :
  forall (web : bool) (tr : list request) (s : Index.system) (b : backend),
    Index.steps web Index.boot tr s ->
    Index.createOpen (Index.ui s) = true ->
    let out := run b (Index.pressCreate (Index.ui s)) (Index.ui s) in
    Index.createOpen (fst out) = false /\
    (trim (Index.spotName (Index.ui s)) = [] ->
     Index.error (fst out) = Some (lit "Name is required") /\
     Index.spots (fst out) = Index.spots (Index.ui s) /\
     snd out = []).
Proof.
  intros web tr s b Hsteps Hopen. cbv zeta.
  pose proof (reachable_create_has_coord Hsteps Hopen) as Hc.
  unfold Index.pressCreate.
  destruct (Index.pendingCoord (Index.ui s)) as [[lat lng]|]; [|congruence].
  rewrite run_seq. split.
  - destruct (run b (Index.createSpotAt lat lng (Index.spotName (Index.ui s))
                       (Some (Index.spotDesc (Index.ui s)))
                       (Some (Index.spotRating (Index.ui s)))) (Index.ui s))
      as [st1 tr1].
    reflexivity.
  - intros Hblank. rewrite (createSpotAt_blank _ _ _ _ _ _ _ Hblank).
    repeat split.
Qed.

Lemma long_press_opens_create :
  exists s,
    Index.steps false Index.boot [] s /\ Index.createOpen (Index.ui s) = true.
Proof.
  eexists. split.
  - change (@nil request) with (@nil request ++ Index.sent None).
    eapply Index.steps_cons; [apply Index.steps_nil|].
    eapply Index.step_event with (ev := Index.LongPress 1%float 2%float);
      [exact I|advanced].
  - reflexivity.
Qed.

Lemma pressCreate_closes_modal_witness :
  exists s,
    Index.createOpen (Index.ui s) = true /\
    Index.createOpen
      (fst (run backend_up (Index.pressCreate (Index.ui s)) (Index.ui s))) = false.
Proof.
  destruct long_press_opens_create as (s & Hsteps & Hopen).
  exists s. split; [exact Hopen|].
  exact (proj1 (@pressCreate_closes_modal false [] s backend_up Hsteps Hopen)).
Defined.

(** On the web fallback no modal ever opens, and the only requests ever
    sent are the select of the spots, the delete confirmation and the
    delete by id: the web screen never creates a spot, never reads or
    writes a review and never asks for the device location. *)
Theorem web_only_lists_and_deletes :
  forall (tr : list request) (s : Index.system),
    Index.steps true Index.boot tr s ->
    no_modal (Index.ui s) /\ Forall web_request tr.
Proof.
  intros tr s Hsteps.
  apply (@keeps_from_boot true no_modal web_request web_handlers_stay); auto.
  split; reflexivity.
Qed.

Lemma web_delete_execution :
  exists tr s,
    Index.steps true Index.boot tr s /\ In (DeleteSpot (lit "s1")) tr.
Proof.
  eexists. eexists. split.
  - eapply Index.steps_cons.
    { eapply Index.steps_cons.
      { eapply Index.steps_cons.
        { eapply Index.steps_cons.
          { apply Index.steps_nil. }
          eapply Index.step_event with (ev := Index.Mounted);
            [exact I|advanced]. }
        eapply Index.step_reply
          with (before := []) (after := [])
               (q := SelectSpots (lit "created_at") false 500%float)
               (resp := Ok [rails; ledges]);
          [reflexivity|advanced]. }
      eapply Index.step_event with (ev := Index.PressDelete ledges);
        [cbn; tauto|advanced]. }
    eapply Index.step_reply
      with (before := []) (after := []) (q := AlertDelete (lit "Ledges"))
           (resp := true);
      [reflexivity|advanced].
  - cbn. tauto.
Qed.

Lemma web_only_lists_and_deletes_witness :
  exists tr s,
    In (DeleteSpot (lit "s1")) tr /\ no_modal (Index.ui s) /\ Forall web_request tr.
Proof.
  destruct web_delete_execution as (tr & s & Hsteps & Hin).
  exists tr, s. split; [exact Hin|].
  exact (@web_only_lists_and_deletes tr s Hsteps).
Defined.

(** Along every execution of the screen, every spot insert carries a name
    that is not empty and neither starts nor ends with white space, and a
    description that is [null] or such a string. *)
Theorem spot_inserts_are_trimmed :
  forall (web : bool) (tr : list request) (s : Index.system),
    Index.steps web Index.boot tr s ->
    forall name description lat lng,
      In (InsertSpot name description lat lng) tr ->
      trimmed name = true /\
      match description with None => True | Some text => trimmed text = true end.
Proof.
  intros web tr s Hsteps name description lat lng Hin.
  destruct (@keeps_from_boot web (fun _ => True) insert_ok
              (@handlers_insert_ok web) I tr s Hsteps) as [_ Htr].
  rewrite Forall_forall in Htr. exact (Htr _ Hin).
Qed.


Lemma execution_with_insert :
  exists tr s,
    Index.steps false Index.boot tr s /\
    In (InsertSpot (lit "Bowl") None 1%float 2%float) tr.
Proof.
  eexists. eexists. split.
  - eapply Index.steps_cons.
    { eapply Index.steps_cons.
      { eapply Index.steps_cons.
        { apply Index.steps_nil. }
        eapply Index.step_event with (ev := Index.LongPress 1%float 2%float);
          [exact I|advanced]. }
      eapply Index.step_event with (ev := Index.ChangeSpotName (lit " Bowl "));
        [reflexivity|advanced]. }
    eapply Index.step_event with (ev := Index.PressCreate);
      [reflexivity|advanced].
  - cbn. tauto.
Qed.

Lemma spot_inserts_are_trimmed_witness :
  trimmed (lit "Bowl") = true /\
  match @None jsstring with None => True | Some text => trimmed text = true end.
Proof.
  destruct execution_with_insert as (tr & s & Hsteps & Hin).
  exact (@spot_inserts_are_trimmed false tr s Hsteps (lit "Bowl") None
           1%float 2%float Hin).
Defined.

Lemma steps_front (web : bool) (s s1 s2 : Index.system)
    (tr1 tr2 : list request) :
  Index.step web s tr1 s1 -> Index.steps web s1 tr2 s2 ->
  Index.steps web s (tr1 ++ tr2) s2.
Proof.
  intros Hstep Hsteps. induction Hsteps as [s1|s1 tr s' tr' s'' _ IH Hlast].
  - rewrite app_nil_r. change tr1 with ([] ++ tr1).
    eapply Index.steps_cons; [apply Index.steps_nil|exact Hstep].
  - rewrite app_assoc. eapply Index.steps_cons; [now apply IH|exact Hlast].
Qed.

(** A history is an execution. *)
Lemma history_steps (web : bool) (s s' : Index.system) (h : list turn) :
  history web s h s' -> exists tr, Index.steps web s tr s'.
Proof.
  induction 1 as [s|s ev st' t h s' Hev Hadv _ [tr IH]
                 |s before q k after resp st' t h s' Hin Hadv _ [tr IH]].
  - exists []. apply Index.steps_nil.
  - eexists. eapply steps_front; [|exact IH].
    now apply Index.step_event with (ev := ev).
  - eexists. eapply steps_front; [|exact IH].
    now apply Index.step_reply with (q := q) (k := k) (resp := resp).
Qed.

Lemma history_nil_inv (web : bool) (s s' : Index.system) :
  history web s [] s' -> s' = s.
Proof. now inversion 1. Qed.

Lemma history_event_inv (web : bool) (s s' : Index.system) (ev : Index.event)
    (h : list turn) :
  history web s (Does ev :: h) s' ->
  history web
    (Index.mkSystem
       (fst (advance (Index.handler web (Index.ui s) ev) (Index.ui s)))
       (Index.suspended (snd (advance (Index.handler web (Index.ui s) ev)
                                      (Index.ui s)))
        ++ Index.inflight s))
    h s'.
Proof.
  inversion 1 as [|s0 ev0 st' t h0 s0' Hev Hadv Hrest|]; subst.
  now rewrite Hadv.
Qed.

Lemma history_reply_inv (web : bool) (s s' : Index.system) (q : request)
    (resp : resp_type q) (h : list turn) :
  history web s (Hears q resp :: h) s' ->
  exists before k after,
    Index.inflight s = before ++ existT _ q k :: after /\
    history web
      (Index.mkSystem (fst (advance (k resp) (Index.ui s)))
         (before ++ Index.suspended (snd (advance (k resp) (Index.ui s)))
          ++ after))
      h s'.
Proof.
  inversion 1 as [| |s0 before q0 k after resp0 st' t h0 s0' Hin Hadv Hrest];
    subst.
  repeat match goal with
         | E : existT _ _ _ = existT _ _ _ |- _ =>
             apply Eqdep.EqdepTheory.inj_pair2 in E; subst
         end.
  exists before, k, after. split; [exact Hin|]. now rewrite Hadv.
Qed.

(** The one task in flight is the one a response resumes. *)
Lemma sole_task (t : Index.task) (before after : list Index.task)
    (q : request) (k : resp_type q -> prog Index.state) :
  [t] = before ++ existT _ q k :: after ->
  before = [] /\ after = [] /\ t = existT _ q k.
Proof.
  destruct before as [|x before]; cbn.
  - intros [= -> <-]. now repeat split.
  - intros [= _ H]. now destruct before.
Qed.

(** Of two tasks in flight, a response resumes the one that sent its
    request. *)
Lemma first_of_two_tasks (t1 t2 : Index.task) (before after : list Index.task)
    (q : request) (k : resp_type q -> prog Index.state) :
  projT1 t2 <> q ->
  [t1; t2] = before ++ existT _ q k :: after ->
  before = [] /\ after = [t2] /\ t1 = existT _ q k.
Proof.
  intros Hq. destruct before as [|x before]; cbn.
  - intros [= -> <-]. now repeat split.
  - intros [= _ H]. apply sole_task in H. destruct H as (_ & _ & ->).
    now cbn in Hq.
Qed.

(** Responses are applied in the order they arrive, with no check of the
    selection.  Take the history in which the spots [a] and [b] load, the
    details of [a] are opened and closed, the details of [b] are opened,
    the select of [b]'s reviews is answered with [reviews_b] and only then
    the select of [a]'s reviews is answered with [reviews_a].  The screen
    can follow it, and whenever it does it ends with nothing in flight, the
    modal open on [b], and the reviews of [a] loaded. *)
Theorem late_reviews_overwrite :
  forall (a b : Spot.t) (reviews_a reviews_b : list Review.t),
    Spot.id a <> Spot.id b ->
    let h :=
      [Does Index.Mounted;
       Hears (SelectSpots (lit "created_at") false 500%float) (Ok [a; b]);
       Does (Index.PressMarker a);
       Does Index.DismissDetails;
       Does (Index.PressMarker b);
       Hears (SelectReviews (Spot.id b) (lit "created_at") false) (Ok reviews_b);
       Hears (SelectReviews (Spot.id a) (lit "created_at") false) (Ok reviews_a)] in
    (exists s, history false Index.boot h s) /\
    (forall s, history false Index.boot h s ->
       (exists tr, Index.steps false Index.boot tr s) /\
       Index.inflight s = [] /\
       Index.detailsOpen (Index.ui s) = true /\
       Index.selectedSpot (Index.ui s) = Some b /\
       Index.spotReviews (Index.ui s) = reviews_a).
Proof.
  intros a b reviews_a reviews_b Hab h. split.
  - eexists. subst h.
    eapply history_event; [exact I|advanced|].
    eapply history_reply with (before := []) (after := []);
      [reflexivity|advanced|].
    eapply history_event; [cbn; tauto|advanced|].
    eapply history_event; [reflexivity|advanced|].
    eapply history_event; [cbn; tauto|advanced|].
    eapply history_reply with (before := []) (after := [_]);
      [reflexivity|advanced|].
    eapply history_reply with (before := []) (after := []);
      [reflexivity|advanced|].
    apply history_nil.
  - intros s H. split; [exact (history_steps H)|]. subst h.
    apply history_event_inv in H. cbn in H.
    apply history_reply_inv in H. destruct H as (before & k & after & Hin & H).
    cbn in Hin. apply sole_task in Hin. destruct Hin as (-> & -> & Hk).
    apply Eqdep.EqdepTheory.inj_pair2 in Hk. subst k. cbn in H.
    apply history_event_inv in H. cbn in H.
    apply history_event_inv in H. cbn in H.
    apply history_event_inv in H. cbn in H.
    apply history_reply_inv in H. destruct H as (before & k & after & Hin & H).
    cbn in Hin. apply first_of_two_tasks in Hin;
      [|cbn; intros [= E]; apply Hab; now apply str_eqb_eq; rewrite E, str_eqb_refl].
    destruct Hin as (-> & -> & Hk).
    apply Eqdep.EqdepTheory.inj_pair2 in Hk. subst k. cbn in H.
    apply history_reply_inv in H. destruct H as (before & k & after & Hin & H).
    cbn in Hin. apply sole_task in Hin. destruct Hin as (-> & -> & Hk).
    apply Eqdep.EqdepTheory.inj_pair2 in Hk. subst k. cbn in H.
    apply history_nil_inv in H. subst s. repeat split.
Qed.

Lemma late_reviews_overwrite_witness :
  exists s,
    Index.selectedSpot (Index.ui s) = Some rails /\
    Index.spotReviews (Index.ui s) = [review_of 3%float; review_of 5%float].
Proof.
  destruct (@late_reviews_overwrite ledges rails
              [review_of 3%float; review_of 5%float] [])
    as [[s Hs] Hall].
  - discriminate.
  - exists s. destruct (Hall s Hs) as (_ & _ & _ & Hsel & Hrev).
    split; assumption.
Defined.

(** ** The places normaliser, further *)

Lemma normalize_elements_None (els : list value) :
  Nearby.normalize_elements els = None <-> existsb nullish els = true.
Proof.
  split.
  - intros H. destruct (existsb nullish els) eqn:E; [reflexivity|].
    rewrite normalize_elements_resolved in H; [discriminate|].
    intros el Hin. destruct (nullish el) eqn:En; [|reflexivity].
    assert (T : existsb nullish els = true)
      by (apply existsb_exists; now exists el).
    congruence.
  - intros H. apply existsb_exists in H. now apply normalize_elements_throws.
Qed.

Lemma normalize_elements_Some (els : list value) (ps : list Place.t) :
  Nearby.normalize_elements els = Some ps ->
  (forall el, In el els -> nullish el = false) /\
  ps = map place_of (filter resolvable els).
Proof.
  intros H.
  assert (Hall : forall el, In el els -> nullish el = false).
  { intros el Hin. destruct (nullish el) eqn:En; [|reflexivity].
    rewrite normalize_elements_throws in H; [discriminate|now exists el]. }
  split; [exact Hall|].
  rewrite (normalize_elements_resolved _ Hall) in H. now injection H.
Qed.


(** Normalising a concatenation of element lists gives the concatenation
    of the normalised lists, and fails when either part fails: places keep
    the order of their elements and each is computed from its element
    alone. *)
Theorem normalize_elements_app :
  forall a b : list value,
    Nearby.normalize_elements (a ++ b) =
    match Nearby.normalize_elements a, Nearby.normalize_elements b with
    | Some x, Some y => Some (x ++ y)
    | _, _ => None
    end.
Proof.
  intros a b.
  destruct (Nearby.normalize_elements a) as [x|] eqn:Ea.
  - destruct (Nearby.normalize_elements b) as [y|] eqn:Eb.
    + apply normalize_elements_Some in Ea. apply normalize_elements_Some in Eb.
      destruct Ea as [Ha ->]. destruct Eb as [Hb ->].
      rewrite normalize_elements_resolved.
      * now rewrite filter_app, map_app.
      * intros el Hin. apply in_app_or in Hin. destruct Hin; auto.
    + apply normalize_elements_None. apply normalize_elements_None in Eb.
      rewrite existsb_app, Eb. apply orb_true_r.
  - apply normalize_elements_None. apply normalize_elements_None in Ea.
    now rewrite existsb_app, Ea.
Qed.

Lemma coalesce_not_nullish (a b : value) :
  nullish b = false -> nullish (coalesce a b) = false.
Proof. unfold coalesce. now destruct (nullish a) eqn:E. Qed.

(** Every place of a normalised list has a name and tags that are neither
    [null] nor [undefined], whatever the elements carried, and the list is
    no longer than the list of elements. *)
Theorem normalized_places_labelled :
  forall (els : list value) (ps : list Place.t),
    Nearby.normalize_elements els = Some ps ->
    Forall place_labelled ps /\ List.length ps <= List.length els.
Proof.
  intros els ps H. apply normalize_elements_Some in H. destruct H as [_ ->].
  split.
  - apply Forall_forall. intros p Hp. apply in_map_iff in Hp.
    destruct Hp as (el & <- & _). unfold place_labelled, place_of.
    cbn [Place.name Place.tags]. split; apply coalesce_not_nullish; [|reflexivity].
    now destruct (strict_eq_str (get_opt (get_opt el "tags") "leisure") "skate_park").
  - rewrite length_map. apply filter_length_le.
Qed.

Lemma normalized_places_labelled_witness :
  Forall place_labelled (map place_of [el_node; el_way]) /\
  List.length (map place_of [el_node; el_way])
    <= List.length [el_node; el_way; el_bare; el_string_lat].
Proof.
  apply (@normalized_places_labelled [el_node; el_way; el_bare; el_string_lat]).
  reflexivity.
Defined.

(** ** [loadNearbySkateShops] *)

(** On a native platform [loadNearbySkateShops] always ends with the
    loading flag cleared and touches no cell but the places, the error and
    that flag.  It replaces the places only on the one path where the
    permission was granted, the position and the response arrived, the
    response was [ok], its body parsed and the normalisation succeeded, and
    then it shows no error; on every other path the places stay as they
    were and an error is shown. *)
Theorem loadNearbySkateShops_all_or_nothing :
  forall (permission : Shops.outcome bool)
         (position : Shops.outcome (number * number))
         (fetched : Shops.outcome Shops.response)
         (typeError : value -> jsstring) (st : Index.state),
    let st' := Shops.loadNearbySkateShops false permission position fetched
                 typeError st in
    Index.placesLoading st' = false /\
    Index.spots st' = Index.spots st /\
    Index.selectedSpot st' = Index.selectedSpot st /\
    Index.spotReviews st' = Index.spotReviews st /\
    ((exists pos resp j,
         permission = Shops.Resolved true /\
         position = Shops.Resolved pos /\
         fetched = Shops.Resolved resp /\
         Shops.ok resp = true /\
         Shops.json resp = Shops.Resolved j /\
         Nearby.normalized j = Some (Index.places st') /\
         Index.error st' = None)
     \/
     (Index.places st' = Index.places st /\ Index.error st' <> None)).
Proof.
  intros permission position fetched typeError st. cbv zeta.
  unfold Shops.loadNearbySkateShops, Shops.try_block.
  destruct permission as [[|]|m]; [| |].
  - destruct position as [pos|m].
    + destruct fetched as [resp|m].
      * destruct (Shops.ok resp) eqn:Eok; cbn [negb].
        -- destruct (Shops.json resp) as [j|m] eqn:Ej.
           ++ destruct (Nearby.normalized j) as [ps|] eqn:En.
              ** repeat split. left. exists pos, resp, j. repeat split; assumption.
              ** repeat split. right. split; [reflexivity|discriminate].
           ++ repeat split. right. split; [reflexivity|discriminate].
        -- repeat split. right. split; [reflexivity|discriminate].
      * repeat split. right. split; [reflexivity|discriminate].
    + repeat split. right. split; [reflexivity|discriminate].
  - repeat split. right. split; [reflexivity|discriminate].
  - repeat split. right. split; [reflexivity|discriminate].
Qed.

(** One [null] member in the [elements] array discards the whole response:
    the places stay as they were, also those of the well-formed elements,
    and the error state shows the TypeError's message. *)
Theorem loadNearbySkateShops_null_element :
  forall (pos : number * number) (status : N) (j : value) (els : list value)
         (el : value) (typeError : value -> jsstring) (st : Index.state),
    get j "elements" = Some (Arr els) ->
    In el els -> nullish el = true ->
    let st' := Shops.loadNearbySkateShops false (Shops.Resolved true)
                 (Shops.Resolved pos)
                 (Shops.Resolved (Shops.mkResponse true status (Shops.Resolved j)))
                 typeError st in
    Index.places st' = Index.places st /\
    Index.error st' = Some (typeError j).
Proof.
  intros pos status j els el typeError st Hget Hin Hn. cbv zeta.
  assert (E : Nearby.normalized j = None).
  { unfold Nearby.normalized. rewrite Hget. cbn [coalesce nullish].
    apply normalize_elements_throws. now exists el. }
  unfold Shops.loadNearbySkateShops, Shops.try_block. cbn [Shops.ok Shops.json negb].
  rewrite E. split; reflexivity.
Qed.

Lemma loadNearbySkateShops_null_element_witness :
  let st' := Shops.loadNearbySkateShops false (Shops.Resolved true)
               (Shops.Resolved (42.96%float, (-85.66)%float))
               (Shops.Resolved
                  (Shops.mkResponse true 200%N
                     (Shops.Resolved (Obj [(lit "elements", Arr [el_node; Null])]))))
               (fun _ => lit "Cannot read property 'lat' of null")
               viewing_ledges in
  Index.places st' = [] /\
  Index.error st' = Some (lit "Cannot read property 'lat' of null").
Proof.
  apply (@loadNearbySkateShops_null_element (42.96%float, (-85.66)%float) 200%N
           (Obj [(lit "elements", Arr [el_node; Null])]) [el_node; Null] Null
           (fun _ => lit "Cannot read property 'lat' of null") viewing_ledges).
  - reflexivity.
  - right. now left.
  - reflexivity.
Defined.

